(** * eth_defi: generic adapter encoding, vault controlled wallet, Web3 factory

    A shallow embedding of

    - [eth_defi/enzyme/generic_adapter.py]
    - [eth_defi/enzyme/vault_controlled_wallet.py]
    - [eth_defi/event_reader/web3factory.py]

    Python values are modelled by the inductive [PyVal], exceptions by
    [exn], and a call that may raise by the [result] monad.  Mutable
    objects (the wallet, the transaction dict, the thread local store)
    are threaded explicitly through the functions that touch them. *)

From Stdlib Require Import ZArith Lia Arith.
From Stdlib Require Import Strings.Byte Strings.Ascii.
From stdpp Require Import base option list gmap strings.

Open Scope Z_scope.

(** ** Byte strings and big-endian integers *)

Abbreviation bytes := (list byte).

Definition Z_of_byte (b : byte) : Z := Z.of_N (Byte.to_N b).

Definition byte_of_Z (z : Z) : byte :=
  default x00 (Byte.of_N (Z.to_N (z mod 256))).

(** [int_to_big_endian n z]: the [n] low-order bytes of [z], most
    significant first (what [int.to_bytes(n, "big")] gives in range). *)
Fixpoint int_to_big_endian (n : nat) (z : Z) : bytes :=
  match n with
  | O => []
  | S n' => int_to_big_endian n' (z / 256) ++ [byte_of_Z z]
  end.

Definition big_endian_to_int (bs : bytes) : Z :=
  foldl (fun acc b => acc * 256 + Z_of_byte b) 0 bs.

Definition is_zero_byte (b : byte) : bool := Byte.eqb b x00.

(** ** Python values *)

(** An address is the 20-byte account identifier.  Python carries it as
    a [str] holding the hex rendering; the embedding keeps the bytes the
    string denotes. *)
Abbreviation address_bytes := (list byte).

(** A web3 [Contract] proxy instance; only its [address] attribute is
    read by the code under study. *)
Record Contract := mkContract { address : address_bytes }.

Inductive PyVal :=
| PNone
| PInt (z : Z)
| PStr (s : string)             (* a str that is not a hex address *)
| PAddress (a : address_bytes)  (* a str holding a hex address *)
| PBytes (b : bytes)
| PHexBytes (b : bytes)
| PContract (c : Contract).

(** Run-time classes. *)
Inductive PyClass :=
| ClsNoneType | ClsInt | ClsStr | ClsBytes | ClsHexBytes | ClsContract.

(** The objects compared with [==] in the source: classes, and the
    aliases built by [typing.NewType].  eth_typing declares
    [HexStr = NewType("HexStr", str)] and
    [HexAddress = NewType("HexAddress", HexStr)]. *)
Inductive PyObj :=
| ObjClass (c : PyClass)
| ObjNewType (name : string) (supertype : PyObj).

Definition HexStr : PyObj := ObjNewType "HexStr" (ObjClass ClsStr).
Definition HexAddress : PyObj := ObjNewType "HexAddress" HexStr.

Definition class_of (v : PyVal) : PyClass :=
  match v with
  | PNone => ClsNoneType
  | PInt _ => ClsInt
  | PStr _ | PAddress _ => ClsStr
  | PBytes _ => ClsBytes
  | PHexBytes _ => ClsHexBytes
  | PContract _ => ClsContract
  end.

(** [type(v)] is always a class object. *)
Definition type_ (v : PyVal) : PyObj := ObjClass (class_of v).

Definition PyClass_eqb (a b : PyClass) : bool :=
  match a, b with
  | ClsNoneType, ClsNoneType | ClsInt, ClsInt | ClsStr, ClsStr
  | ClsBytes, ClsBytes | ClsHexBytes, ClsHexBytes
  | ClsContract, ClsContract => true
  | _, _ => false
  end.

(** [a == b] on classes and NewType aliases: neither overrides
    [__eq__], so the comparison is object identity. *)
Fixpoint py_eq (a b : PyObj) : bool :=
  match a, b with
  | ObjClass c, ObjClass d => PyClass_eqb c d
  | ObjNewType n s, ObjNewType m t => bool_decide (n = m) && py_eq s t
  | _, _ => false
  end.

(** [isinstance(v, cls)]; [HexBytes] is the one subclass involved. *)
Definition isinstance (v : PyVal) (cls : PyClass) : bool :=
  PyClass_eqb (class_of v) cls
  || (PyClass_eqb (class_of v) ClsHexBytes && PyClass_eqb cls ClsBytes).

(** ** Exceptions and results *)

Inductive assert_msg :=
| NoMessage
| GotBadAsset (asset : PyVal)                (* f"Got bad asset: {asset}" *)
| EncodedCallArgsIs (v : PyVal) (t : PyObj)  (* f"encoded_call_args is {v} {type(v)}" *)
| SelectorIs (v : PyVal) (t : PyObj).        (* f"Selector is {v} {type(v)}" *)

(** [eth_abi.exceptions]: [EncodingTypeError] and [ValueOutOfBounds]
    are subclasses of [EncodingError]; the third constructor is the
    error the adapter code raises itself. *)
Inductive encoding_error :=
| EncodingTypeError (v : PyVal)
| ValueOutOfBounds (v : PyVal)
| CouldNotEncode (addresses : list PyVal) (datas : list bytes).

Inductive exn :=
| AssertionError (m : assert_msg)
| EncodingError (e : encoding_error)
| AttributeError (name : string)
| NameError (name : string).

Inductive result (A : Type) :=
| Ok (a : A)
| Raise (e : exn).
Arguments Ok {A} a.
Arguments Raise {A} e.

Definition is_raise {A} (r : result A) : bool :=
  match r with Ok _ => false | Raise _ => true end.

#[global] Instance result_ret : MRet result := fun A a => Ok a.
#[global] Instance result_bind : MBind result := fun A B f m =>
  match m with Ok a => f a | Raise e => Raise e end.

(** [assert cond, msg] *)
Definition assert_ (cond : bool) (m : assert_msg) : result unit :=
  if cond then Ok tt else Raise (AssertionError m).

(** ** The contract ABI codec

    [eth_abi.encode] and [eth_abi.decode] are library code; the model
    follows the library's encoder and decoder classes for the types the
    adapter uses: head/tail layout, 32-byte words, big-endian integers,
    left-padded addresses, right-padded byte strings.  An encoder
    validates its value when it encodes it, so a value that the library
    refuses makes the whole [encode] call raise an [EncodingError]
    here as well. *)
Module Abi.

Definition UINT_256_MAX : Z := 2 ^ 256 - 1.

(** [encode_uint_256]: [UnsignedIntegerEncoder] at 256 bits. *)
Definition encode_uint_256 (z : Z) : result bytes :=
  if bool_decide (0 <= z <= UINT_256_MAX)
  then Ok (int_to_big_endian 32 z)
  else Raise (EncodingError (ValueOutOfBounds (PInt z))).

(** [is_address]: a hex address string, or a 20-byte binary address. *)
Definition is_address (v : PyVal) : bool :=
  match v with
  | PAddress a | PBytes a | PHexBytes a => bool_decide (length a = 20%nat)
  | _ => false
  end.

Definition to_canonical_address (v : PyVal) : bytes :=
  match v with
  | PAddress a | PBytes a | PHexBytes a => a
  | _ => []
  end.

Definition zpad (n : nat) (b : bytes) : bytes :=
  replicate (n - length b) x00 ++ b.

Definition zpad_right (n : nat) (b : bytes) : bytes :=
  b ++ replicate (n - length b) x00.

Definition ceil32 (n : nat) : nat :=
  (n + (32 - n mod 32) mod 32)%nat.

(** [AddressEncoder] *)
Definition encode_address (v : PyVal) : result bytes :=
  if is_address v
  then Ok (zpad 32 (to_canonical_address v))
  else Raise (EncodingError (EncodingTypeError v)).

(** [ByteStringEncoder], ABI type [bytes] *)
Definition encode_bytes (b : bytes) : result bytes :=
  encoded_size ← encode_uint_256 (Z.of_nat (length b));
  Ok (encoded_size ++ zpad_right (ceil32 (length b)) b).

(** [BytesEncoder] with [value_bit_size = 8 * n], ABI type [bytesN] *)
Definition encode_bytesN (n : nat) (b : bytes) : result bytes :=
  if bool_decide (length b ≤ n)%nat
  then Ok (zpad_right 32 b)
  else Raise (EncodingError (ValueOutOfBounds (PBytes b))).

(** [(0,) + tuple(accumulate(map(len, tail_chunks[:-1])))] *)
Fixpoint tail_offsets_from (acc : nat) (tail_chunks : list bytes) : list nat :=
  match tail_chunks with
  | [] => []
  | t :: ts => acc :: tail_offsets_from (acc + length t) ts
  end.

Definition head_chunk_length (h : option bytes) : nat :=
  match h with None => 32%nat | Some item => length item end.

(** [TupleEncoder.encode], given for every component whether its
    encoder is dynamic and the bytes the encoder produced. *)
Definition encode_tuple (components : list (bool * bytes)) : result bytes :=
  let raw_head_chunks :=
    (fun c : bool * bytes => if c.1 then None else Some c.2) <$> components in
  let tail_chunks :=
    (fun c : bool * bytes => if c.1 then c.2 else []) <$> components in
  let head_length := sum_list (head_chunk_length <$> raw_head_chunks) in
  let tail_offsets := tail_offsets_from 0 tail_chunks in
  head_chunks ← mapM (fun co : option bytes * nat =>
                        match co.1 with
                        | None => encode_uint_256 (Z.of_nat (head_length + co.2))
                        | Some chunk => Ok chunk
                        end) (zip raw_head_chunks tail_offsets);
  Ok (concat head_chunks ++ concat tail_chunks).

(** [BaseArrayEncoder.encode_elements] *)
Definition encode_elements (items_are_dynamic : bool) (tail_chunks : list bytes)
  : result bytes :=
  if negb items_are_dynamic || bool_decide (length tail_chunks = 0%nat)
  then Ok (concat tail_chunks)
  else
    let head_length := (32 * length tail_chunks)%nat in
    let tail_offsets := tail_offsets_from 0 tail_chunks in
    head_chunks ← mapM (fun offset =>
                          encode_uint_256 (Z.of_nat (head_length + offset)))
                       tail_offsets;
    Ok (concat head_chunks ++ concat tail_chunks).

(** [DynamicArrayEncoder.encode] *)
Definition encode_array {A} (items_are_dynamic : bool)
    (item_encoder : A → result bytes) (value : list A) : result bytes :=
  tail_chunks ← mapM item_encoder value;
  encoded_size ← encode_uint_256 (Z.of_nat (length value));
  encoded_elements ← encode_elements items_are_dynamic tail_chunks;
  Ok (encoded_size ++ encoded_elements).

Definition encode_address_array : list PyVal → result bytes :=
  encode_array false encode_address.
Definition encode_uint256_array : list Z → result bytes :=
  encode_array false encode_uint_256.
Definition encode_bytes_array : list bytes → result bytes :=
  encode_array true encode_bytes.

(** *** Decoding.  A decoder reads from the stream positioned at the
    start of its value; the list is the rest of the current frame. *)

Definition read_word (stream : bytes) : option bytes :=
  if bool_decide (32 ≤ length stream)%nat then Some (take 32 stream) else None.

Definition decode_uint_256 (stream : bytes) : option Z :=
  big_endian_to_int <$> read_word stream.

(** [AddressDecoder]: the 12 padding bytes must be zero. *)
Definition decode_address (stream : bytes) : option address_bytes :=
  w ← read_word stream;
  if forallb is_zero_byte (take 12 w) then Some (drop 12 w) else None.

(** [ByteStringDecoder]: length word, data, zero padding. *)
Definition decode_bytes (stream : bytes) : option bytes :=
  n ← decode_uint_256 stream;
  let body := drop 32 stream in
  if bool_decide (n <= Z.of_nat (length body)) then
    let len := Z.to_nat n in
    if bool_decide (ceil32 len ≤ length body)%nat
       && forallb is_zero_byte (drop len (take (ceil32 len) body))
    then Some (take len body) else None
  else None.

(** [HeadTailDecoder]: the word at [head_pos] is the offset of the
    value from the start of the frame. *)
Definition head_tail {A} (tail_decoder : bytes → option A)
    (frame : bytes) (head_pos : nat) : option A :=
  start_pos ← decode_uint_256 (drop head_pos frame);
  if bool_decide (start_pos <= Z.of_nat (length frame))
  then tail_decoder (drop (Z.to_nat start_pos) frame)
  else None.

(** [DynamicArrayDecoder]: size word, then a frame holding the items. *)
Definition decode_array {A} (items_are_dynamic : bool)
    (item_decoder : bytes → option A) (stream : bytes) : option (list A) :=
  array_size ← decode_uint_256 stream;
  let frame := drop 32 stream in
  if bool_decide (32 * array_size <= Z.of_nat (length frame)) then
    mapM (fun i : nat =>
            if items_are_dynamic
            then head_tail item_decoder frame (32 * i)
            else item_decoder (drop (32 * i) frame))
         (seq 0 (Z.to_nat array_size))
  else None.

Definition decode_address_array := decode_array false decode_address.
Definition decode_uint256_array := decode_array false decode_uint_256.
Definition decode_bytes_array := decode_array true decode_bytes.

(** [encode(['address[]', 'bytes[]'], [addresses, datas])] *)
Definition encode_external_calls (addresses : list PyVal) (datas : list bytes)
  : result bytes :=
  a ← encode_address_array addresses;
  d ← encode_bytes_array datas;
  encode_tuple [(true, a); (true, d)].

(** [decode(['address[]', 'bytes[]'], data)] *)
Definition decode_external_calls (data : bytes)
  : option (list address_bytes * list bytes) :=
  a ← head_tail decode_address_array data 0;
  d ← head_tail decode_bytes_array data 32;
  Some (a, d).

(** [encode(['address[]','uint256[]','address[]','uint256[]','bytes'], ...)] *)
Definition encode_execute_calls (incoming : list PyVal) (min_incoming : list Z)
    (spend : list PyVal) (spend_amounts : list Z) (calls_data : bytes)
  : result bytes :=
  c0 ← encode_address_array incoming;
  c1 ← encode_uint256_array min_incoming;
  c2 ← encode_address_array spend;
  c3 ← encode_uint256_array spend_amounts;
  c4 ← encode_bytes calls_data;
  encode_tuple [(true, c0); (true, c1); (true, c2); (true, c3); (true, c4)].

(** [decode(['address[]','uint256[]','address[]','uint256[]','bytes'], data)] *)
Definition decode_execute_calls (data : bytes)
  : option (list address_bytes * list Z * list address_bytes * list Z * bytes) :=
  v0 ← head_tail decode_address_array data 0;
  v1 ← head_tail decode_uint256_array data 32;
  v2 ← head_tail decode_address_array data 64;
  v3 ← head_tail decode_uint256_array data 96;
  v4 ← head_tail decode_bytes data 128;
  Some (v0, v1, v2, v3, v4).

(** [encode(['address', 'bytes4', 'bytes'], [adapter, selector, args])] *)
Definition encode_call_on_integration (adapter : PyVal) (selector : bytes)
    (encoded_call_args : bytes) : result bytes :=
  c0 ← encode_address adapter;
  c1 ← encode_bytesN 4 selector;
  c2 ← encode_bytes encoded_call_args;
  encode_tuple [(false, c0); (false, c1); (true, c2)].

End Abi.

(** ** eth_defi/enzyme/generic_adapter.py *)
Module GenericAdapter.

(** [asset.address] *)
Definition get_address (v : PyVal) : result PyVal :=
  match v with
  | PContract c => Ok (PAddress (address c))
  | _ => Raise (AttributeError "address")
  end.

Definition _addressify (asset : PyVal) : result PyVal :=
  _ ← assert_ (isinstance asset ClsContract || py_eq (type_ asset) HexAddress)
              (GotBadAsset asset);
  if isinstance asset ClsContract
  then get_address asset
  else Ok asset.

Definition _addressify_collection (assets : list PyVal) : result (list PyVal) :=
  mapM _addressify assets.

(** [try: encode(...) except EncodingError as e: raise EncodingError(...) from e] *)
Definition rewrap_encoding_error (addresses : list PyVal) (datas : list bytes)
    (r : result bytes) : result bytes :=
  match r with
  | Raise (EncodingError _) => Raise (EncodingError (CouldNotEncode addresses datas))
  | _ => r
  end.

Definition encode_generic_adapter_execute_calls_args
    (incoming_assets : list PyVal)
    (min_incoming_asset_amounts : list Z)
    (spend_assets : list PyVal)
    (spend_asset_amounts : list Z)
    (external_calls : list (PyVal * bytes)) : result bytes :=
  addresses ← mapM (fun t : PyVal * bytes => _addressify t.1) external_calls;
  let datas := (fun t : PyVal * bytes => t.2) <$> external_calls in
  encoded_external_calls_data ←
    rewrap_encoding_error addresses datas
      (Abi.encode_external_calls addresses datas);
  incoming ← _addressify_collection incoming_assets;
  spend ← _addressify_collection spend_assets;
  Abi.encode_execute_calls incoming min_incoming_asset_amounts
                           spend spend_asset_amounts
                           encoded_external_calls_data.

(** [type(v) in (bytes, HexBytes)] *)
Definition type_in_bytes_HexBytes (v : PyVal) : bool :=
  py_eq (type_ v) (ObjClass ClsBytes) || py_eq (type_ v) (ObjClass ClsHexBytes).

(** The content of a bytes-like value; read only once the type
    assertions have passed. *)
Definition bytes_content (v : PyVal) : bytes :=
  match v with
  | PBytes b | PHexBytes b => b
  | _ => []
  end.

Definition encode_call_on_integration_args
    (adapter : PyVal) (selector : PyVal) (encoded_call_args : PyVal)
  : result bytes :=
  _ ← assert_ (type_in_bytes_HexBytes selector) NoMessage;
  _ ← assert_ (type_in_bytes_HexBytes encoded_call_args)
              (EncodedCallArgsIs encoded_call_args (type_ encoded_call_args));
  _ ← assert_ (bool_decide (length (bytes_content selector) = 4%nat))
              (SelectorIs selector (type_ selector));
  _ ← assert_ (bool_decide (0 < length (bytes_content encoded_call_args))%nat)
              NoMessage;
  a ← _addressify adapter;
  Abi.encode_call_on_integration a (bytes_content selector)
                                 (bytes_content encoded_call_args).

End GenericAdapter.

(** ** eth_defi/enzyme/vault_controlled_wallet.py *)
Module Wallet.

(** A transaction request is a Python dict. *)
Abbreviation tx_dict := (gmap string PyVal).

(** The connection handle as the wallet sees it. *)
Record Web3 := mkWeb3 { get_transaction_count : address_bytes → Z }.

(** An [eth_account] local account. *)
Record LocalAccount := mkAccount { account_address : address_bytes }.

(** What [Account.sign_transaction] returns. *)
Record SignedTransaction := mkSigned {
  rawTransaction : bytes;
  hash : bytes;
  v : Z;
  r : Z;
  s : Z
}.

Record SignedTransactionWithNonce := mkSignedWithNonce {
  swn_rawTransaction : bytes;
  swn_hash : bytes;
  swn_v : Z;
  swn_r : Z;
  swn_s : Z;
  swn_nonce : option PyVal;
  swn_source : tx_dict
}.

(** Modelled from the spec: [eth_defi.hotwallet.HotWallet] is imported
    by the wallet module but is not among the sources.  The spec gives
    the wallet an account and a nonce counter, "a single monotonically
    increasing integer per wallet"; [sync_nonce] "reads the current
    on-chain transaction count for the account and adopts it as the
    local counter's starting value", overwriting any prior value;
    [allocate_nonce] "returns the current counter value and increments
    it". *)
Record HotWallet := mkHotWallet {
  account : LocalAccount;
  current_nonce : Z
}.

(** Modelled from the spec: [HotWallet.sync_nonce], absent from the
    sources; it "adopts [the on-chain transaction count] as the local
    counter's starting value" and "overwrites any prior local value
    unconditionally". *)
Definition HotWallet_sync_nonce (web3 : Web3) (self : HotWallet) : HotWallet :=
  {| account := account self;
     current_nonce := get_transaction_count web3 (account_address (account self)) |}.

(** Modelled from the spec: [HotWallet.allocate_nonce], absent from the
    sources; it "returns the current counter value and increments it". *)
Definition HotWallet_allocate_nonce (self : HotWallet) : Z * HotWallet :=
  (current_nonce self,
   {| account := account self; current_nonce := current_nonce self + 1 |}).

(** The vault handle; the wallet only stores it. *)
Record Vault := mkVault { vault_address : address_bytes }.

(** [__init__] binds exactly [self.vault] and [self.hot_wallet]. *)
Record VaultControlledWallet := mkWallet {
  vault : Vault;
  hot_wallet : HotWallet
}.

Definition __init__ (vault : Vault) (hot_wallet : HotWallet) : VaultControlledWallet :=
  mkWallet vault hot_wallet.

(** Names defined in the class body. *)
Definition class_attributes : list string :=
  ["address"; "sync_nonce"; "allocate_nonce"; "sign_transaction_with_new_nonce";
   "get_native_currency_balance"; "from_private_key"].

(** Names bound at module level: the three import lines and the class. *)
Definition module_globals : list string :=
  ["Web3"; "Vault"; "HotWallet"; "SignedTransactionWithNonce";
   "VaultControlledWallet"].

Inductive attr :=
| AttrVault (x : Vault)
| AttrHotWallet (x : HotWallet)
| AttrAccount (x : LocalAccount)
| AttrClassMember (name : string).

(** [self.<name>]: the instance dict first, then the class. *)
Definition getattr (self : VaultControlledWallet) (name : string) : result attr :=
  if bool_decide (name = "vault") then Ok (AttrVault (vault self))
  else if bool_decide (name = "hot_wallet") then Ok (AttrHotWallet (hot_wallet self))
  else if bool_decide (name ∈ class_attributes) then Ok (AttrClassMember name)
  else Raise (AttributeError name).

(** A global name used as a function. *)
Definition lookup_global (name : string) : result unit :=
  if bool_decide (name ∈ module_globals) then Ok tt else Raise (NameError name).

Definition sync_nonce (web3 : Web3) (self : VaultControlledWallet)
  : VaultControlledWallet :=
  {| vault := vault self;
     hot_wallet := HotWallet_sync_nonce web3 (hot_wallet self) |}.

Definition allocate_nonce (self : VaultControlledWallet)
  : Z * VaultControlledWallet :=
  let '(nonce, hw) := HotWallet_allocate_nonce (hot_wallet self) in
  (nonce, {| vault := vault self; hot_wallet := hw |}).

(** [allocate_nonce] called [n] times in a row: the values returned,
    in order, and the wallet afterwards. *)
Fixpoint allocate_nonces (n : nat) (self : VaultControlledWallet)
  : list Z * VaultControlledWallet :=
  match n with
  | O => ([], self)
  | S n' =>
      let '(nonce, self1) := allocate_nonce self in
      let '(rest, self2) := allocate_nonces n' self1 in
      (nonce :: rest, self2)
  end.

Section Signing.
(** [Account.sign_transaction] of eth_account. *)
Variable sign_transaction : LocalAccount → tx_dict → SignedTransaction.

(** [target.sign_transaction(tx)] *)
Definition call_sign_transaction (target : attr) (tx : tx_dict)
  : result SignedTransaction :=
  match target with
  | AttrAccount a => Ok (sign_transaction a tx)
  | _ => Raise (AttributeError "sign_transaction")
  end.

(** The statements after the nonce has been stored in [tx]. *)
Definition sign_with_nonce (self : VaultControlledWallet) (tx : tx_dict)
  : result SignedTransactionWithNonce :=
  acct ← getattr self "account";
  _signed ← call_sign_transaction acct tx;
  _ ← lookup_global "decode_signed_transaction";
  Ok {| swn_rawTransaction := rawTransaction _signed;
        swn_hash := hash _signed;
        swn_v := v _signed;
        swn_r := r _signed;
        swn_s := s _signed;
        swn_nonce := tx !! "nonce";
        swn_source := tx |}.

(** Returns the outcome, the wallet after the call and the request
    dict after the call (the dict is updated in place). *)
Definition sign_transaction_with_new_nonce
    (self : VaultControlledWallet) (tx : tx_dict)
  : result SignedTransactionWithNonce * VaultControlledWallet * tx_dict :=
  if bool_decide (is_Some (tx !! "nonce"))
  then (Raise (AssertionError NoMessage), self, tx)
  else
    let '(nonce, self1) := allocate_nonce self in
    let tx1 := <["nonce" := PInt nonce]> tx in
    (sign_with_nonce self1 tx1, self1, tx1).
End Signing.

End Wallet.

(** ** eth_defi/event_reader/web3factory.py *)
Module Web3Factory.

Abbreviation thread := nat.

Record HTTPAdapter := mkAdapter { pool_connections : nat; pool_maxsize : nat }.

(** A Web3 connection object: its identity, the endpoint and session
    adapter it was built with, and the middleware installed on it. *)
Record Web3 := mkWeb3 {
  obj_id : nat;
  endpoint : string;
  session_adapter : HTTPAdapter;
  middleware : list string
}.

Record TunedWeb3Factory := mkFactory {
  json_rpc_url : string;
  http_adapter : HTTPAdapter;
  thread_local_cache : bool
}.

(** [TunedWeb3Factory.__init__] *)
Definition __init__ (json_rpc_url : string) (http_adapter : option HTTPAdapter)
    (thread_local_cache : bool) : TunedWeb3Factory :=
  mkFactory json_rpc_url (default (mkAdapter 10 10) http_adapter) thread_local_cache.

(** The interpreter state the factory touches: the module level
    [_web3_thread_local_cache = local()], whose one attribute [web3]
    has a separate slot per thread, and the supply of fresh objects. *)
Record World := mkWorld {
  _web3_thread_local_cache : gmap thread Web3;
  next_obj : nat
}.

Definition initial_world : World := mkWorld ∅ 0.

(** The connection built on a cache miss. *)
Definition new_web3 (self : TunedWeb3Factory) (w : World) : Web3 :=
  mkWeb3 (next_obj w) (json_rpc_url self) (http_adapter self)
         ["chain"; "retry"].

(** [TunedWeb3Factory.__call__], run on thread [t]. *)
Definition __call__ (self : TunedWeb3Factory) (t : thread) (w : World)
  : Web3 * World :=
  match (if thread_local_cache self
         then _web3_thread_local_cache w !! t else None) with
  | Some web3 => (web3, w)
  | None =>
      let web3 := new_web3 self w in
      (web3,
       {| _web3_thread_local_cache :=
            if thread_local_cache self
            then <[t := web3]> (_web3_thread_local_cache w)
            else _web3_thread_local_cache w;
          next_obj := S (next_obj w) |})
  end.

(** A history of factory invocations, by any factories on any threads. *)
Fixpoint run (calls : list (TunedWeb3Factory * thread)) (w : World) : World :=
  match calls with
  | [] => w
  | (f, t) :: rest => run rest (__call__ f t w).2
  end.

End Web3Factory.

(** ** Notions used to state the properties *)

(** A chunk that fills exactly one 32-byte word. *)
Definition word_sized (c : bytes) : Prop := length c = 32%nat.

(** The head of a sequence of dynamic items: one offset word each. *)
Definition offset_heads (tails : list bytes) : result (list bytes) :=
  mapM (fun offset =>
          Abi.encode_uint_256 (Z.of_nat (32 * length tails + offset)))
       (Abi.tail_offsets_from 0 tails).

Definition is_encoding_error (e : exn) : Prop := ∃ x, e = EncodingError x.

(** The two shapes an asset reference may have: a contract proxy or a
    raw address string. *)
Definition is_asset_reference (v : PyVal) : bool :=
  match v with
  | PContract _ | PAddress _ => true
  | _ => false
  end.

(** Cached connections are older than the next fresh object, and no
    connection sits in the slots of two threads. *)
Definition cache_ok (w : Web3Factory.World) : Prop :=
  (∀ t h, Web3Factory._web3_thread_local_cache w !! t = Some h →
          (Web3Factory.obj_id h < Web3Factory.next_obj w)%nat)
  ∧ (∀ t1 t2 h1 h2,
       Web3Factory._web3_thread_local_cache w !! t1 = Some h1 →
       Web3Factory._web3_thread_local_cache w !! t2 = Some h2 →
       Web3Factory.obj_id h1 = Web3Factory.obj_id h2 → t1 = t2).

(** ** Concrete inputs *)

(** The swap of the end-to-end example: WETH in, USDC out, one call to
    the router. *)
Module Examples.
Definition WETH : Contract := mkContract (replicate 19 x00 ++ [x01]).
Definition USDC : Contract := mkContract (replicate 19 x00 ++ [x02]).
Definition ROUTER : Contract := mkContract (replicate 19 x00 ++ [xaa]).
Definition swap_calldata : bytes := [x38; xed; x17; x39; x00].

Definition execute_calls_encoded : bytes :=
  Eval vm_compute in
    match GenericAdapter.encode_generic_adapter_execute_calls_args
            [PContract WETH] [1] [PContract USDC] [500000000]
            [(PContract ROUTER, swap_calldata)] with
    | Ok b => b
    | Raise _ => []
    end.

Definition selector : bytes := [xde; xad; xbe; xef].

Definition call_on_integration_encoded : bytes :=
  Eval vm_compute in
    match GenericAdapter.encode_call_on_integration_args
            (PContract ROUTER) (PBytes selector) (PBytes [x01]) with
    | Ok b => b
    | Raise _ => []
    end.
End Examples.

Module WalletExamples.
Import Wallet.
Definition chain : Web3 := mkWeb3 (fun _ => 7).
Definition fresh_wallet : VaultControlledWallet :=
  __init__ (mkVault (replicate 20 x0a))
           (mkHotWallet (mkAccount (replicate 20 x0b)) 0).
Definition zero_signature (_ : LocalAccount) (_ : tx_dict) : SignedTransaction :=
  mkSigned [] [] 0 0 0.
Definition request : tx_dict := {[ "gas" := PInt 100000 ]}.
Definition request_with_nonce : tx_dict := <["nonce" := PInt 3]> request.
End WalletExamples.

Module FactoryExamples.
Import Web3Factory.
Definition mainnet : TunedWeb3Factory := __init__ "https://mainnet.example" None true.
Definition polygon : TunedWeb3Factory := __init__ "https://polygon.example" None true.
Definition thread_A : thread := 1%nat.
Definition thread_B : thread := 2%nat.
Definition thread_C : thread := 3%nat.
End FactoryExamples.

(** ** The call-on-integration envelope, decoded *)
Module AbiEnvelope.

(** [FixedByteSizeDecoder] for [bytesN]: the value is the first [n]
    bytes of the word, the rest must be zero. *)
Definition decode_bytesN (n : nat) (stream : bytes) : option bytes :=
  w ← Abi.read_word stream;
  if forallb is_zero_byte (drop n w) then Some (take n w) else None.

(** [decode(['address', 'bytes4', 'bytes'], data)] *)
Definition decode_call_on_integration (data : bytes)
  : option (address_bytes * bytes * bytes) :=
  a ← Abi.decode_address data;
  s ← decode_bytesN 4 (drop 32 data);
  b ← Abi.head_tail Abi.decode_bytes data 64;
  Some (a, s, b).

End AbiEnvelope.

(** ** generic_adapter.py: [execute_calls_for_generic_adapter] *)
Module ExecuteCalls.

(** What [build_transaction] returns. *)
Abbreviation TxParams := (gmap string PyVal).

Section Environment.
(** [Web3.keccak] *)
Variable keccak : bytes → bytes.
(** [IntegrationManagerActionId.CallOnIntegration.value]; the enum is
    declared in a module that is not among the sources. *)
Variable CallOnIntegration_value : Z.
(** [comptroller.functions.callOnExtension(extension, action_id,
    call_args).build_transaction()] of web3. *)
Variable callOnExtension_build_transaction :
  Contract → PyVal → Z → bytes → result TxParams.

(** [Web3.keccak(b"executeCalls(address,bytes,bytes)")[0:4]]; a slice of
    a [HexBytes] is a [HexBytes]. *)
Definition EXECUTE_CALLS_SELECTOR : PyVal :=
  PHexBytes (take 4 (keccak (String.list_byte_of_string
                               "executeCalls(address,bytes,bytes)"))).

Definition execute_calls_for_generic_adapter
    (comptroller : PyVal)
    (external_calls : list (PyVal * bytes))
    (generic_adapter : PyVal)
    (integration_manager : PyVal)
    (incoming_assets : list PyVal)
    (min_incoming_asset_amounts : list Z)
    (spend_assets : list PyVal)
    (spend_asset_amounts : list Z) : result TxParams :=
  _ ← assert_ (isinstance comptroller ClsContract) NoMessage;
  _ ← assert_ (bool_decide (0 < length external_calls)%nat) NoMessage;
  _ ← assert_ (isinstance generic_adapter ClsContract) NoMessage;
  _ ← assert_ (bool_decide (0 < length incoming_assets)%nat) NoMessage;
  _ ← assert_ (isinstance integration_manager ClsContract) NoMessage;
  _ ← assert_ (bool_decide (0 < length min_incoming_asset_amounts)%nat) NoMessage;
  _ ← assert_ (bool_decide (0 < length spend_asset_amounts)%nat) NoMessage;
  _ ← assert_ (bool_decide (0 < length spend_assets)%nat) NoMessage;
  execute_call_args ←
    GenericAdapter.encode_generic_adapter_execute_calls_args
      incoming_assets min_incoming_asset_amounts
      spend_assets spend_asset_amounts external_calls;
  call_args ←
    GenericAdapter.encode_call_on_integration_args
      generic_adapter EXECUTE_CALLS_SELECTOR (PBytes execute_call_args);
  match comptroller with
  | PContract c =>
      extension ← GenericAdapter.get_address integration_manager;
      callOnExtension_build_transaction c extension
                                        CallOnIntegration_value call_args
  | _ => Raise (AttributeError "functions")
  end.
End Environment.

End ExecuteCalls.

(** ** vault_controlled_wallet.py: the remaining members *)
Module WalletMembers.
Import Wallet.

(** The [address] property: [self.account.address]. *)
Definition address (self : VaultControlledWallet) : result PyVal :=
  acct ← getattr self "account";
  match acct with
  | AttrAccount a => Ok (PAddress (account_address a))
  | _ => Raise (AttributeError "address")
  end.

Section Chain.
(** The value type [decimal.Decimal] and [web3.from_wei]. *)
Variable Decimal : Type.
Variable from_wei : Z → string → Decimal.
(** [web3.eth.get_balance] of the connection passed in. *)
Variable get_balance : PyVal → result Z.

(** The argument [self.address] is evaluated before [get_balance] is
    called. *)
Definition get_native_currency_balance (self : VaultControlledWallet)
  : result Decimal :=
  a ← address self;
  balance ← get_balance a;
  Ok (from_wei balance "ether").
End Chain.

Section Keys.
(** [Account.from_key] of eth_account. *)
Variable from_key : string → result LocalAccount.

(** [HotWallet(account)]; the counter starts unset in the spec's
    wording, here at 0 until [sync_nonce] overwrites it. *)
Definition from_private_key (key : string) : result HotWallet :=
  _ ← assert_ (String.prefix "0x" key) NoMessage;
  _ ← lookup_global "Account";
  account ← from_key key;
  Ok (mkHotWallet account 0).
End Keys.

End WalletMembers.

(** ** eth_defi/deploy.py *)
Module Deploy.

(** [str.replace(old, new)] for a non-empty [old]: occurrences are
    replaced from left to right, without overlap.  [skip] counts the
    characters of a matched occurrence still to be dropped. *)
Fixpoint replace_from (old new : string) (skip : nat) (s : string) : string :=
  match s with
  | EmptyString => EmptyString
  | String c s' =>
      match skip with
      | S k => replace_from old new k s'
      | O =>
          if String.prefix old s
          then (new +:+ replace_from old new (String.length old - 1) s')%string
          else String c (replace_from old new 0 s')
      end
  end.

Definition str_replace (s old new : string) : string :=
  replace_from old new 0 s.

(** A contract proxy class, as [web3.eth.contract(abi=..., bytecode=...)]
    builds it. *)
Record ProxyClass := mkProxyClass { abi : string; bytecode : bytes }.

(** A proxy instance bound to an address.  The attribute [name] exists
    only once [deploy_contract] has assigned it; its value may be
    [None]. *)
Record ContractInstance := mkInstance {
  proxy_class : ProxyClass;
  instance_address : string;
  name : option (option string)
}.

(** [ContractRegistry: TypeAlias = Dict[HexAddress, Contract]]; the keys
    are Python strings. *)
Abbreviation ContractRegistry := (gmap string ContractInstance).

(** The connection object: whether it has the attribute
    [contract_registry], and the dict the attribute refers to. *)
Record Web3 := mkWeb3 { contract_registry : option ContractRegistry }.

(** Returns the registry and the connection object after the call. *)
Definition get_or_create_contract_registry (web3 : Web3)
  : ContractRegistry * Web3 :=
  match contract_registry web3 with
  | None => (∅, mkWeb3 (Some ∅))
  | Some registry => (registry, web3)
  end.

(** [registry[address] = instance] updates the dict the connection
    object refers to. *)
Definition register_contract (web3 : Web3) (address : string)
    (instance : ContractInstance) : Web3 :=
  let '(registry, web3') := get_or_create_contract_registry web3 in
  mkWeb3 (Some (<[address := instance]> registry)).

(** The argument [contract]: a file name or a proxy class. *)
Inductive ContractArg :=
| ByName (fname : string)
| ByClass (cls : ProxyClass).

Record TxReceipt := mkReceipt { contractAddress : string }.

Section Chain.
(** The chain behind the connection, and the calls made on it. *)
Variable Chain : Type.
Variable TxHash : Type.
(** [eth_defi.abi.get_contract], not among the sources. *)
Variable get_contract : Web3 → string → result ProxyClass.
(** [Contract.constructor(...).transact({"from": deployer})] *)
Variable transact :
  Chain → ProxyClass → list PyVal → string → result TxHash * Chain.
(** [web3.eth.wait_for_transaction_receipt(tx_hash)] *)
Variable wait_for_transaction_receipt :
  Chain → TxHash → result TxReceipt * Chain.

(** The first statement: the proxy class and the contract name. *)
Definition resolve_contract (web3 : Web3) (contract : ContractArg)
  : result (ProxyClass * option string) :=
  match contract with
  | ByName fname =>
      cls ← get_contract web3 fname;
      Ok (cls, Some (str_replace fname ".json" ""))
  | ByClass cls => Ok (cls, None)
  end.

(** Returns the outcome, the connection object and the chain after the
    call. *)
Definition deploy_contract (web3 : Web3) (chain : Chain)
    (contract : ContractArg) (deployer : string)
    (constructor_args : list PyVal) (register_for_tracing : bool)
  : result ContractInstance * Web3 * Chain :=
  match resolve_contract web3 contract with
  | Raise e => (Raise e, web3, chain)
  | Ok (cls, contract_name) =>
      match transact chain cls constructor_args deployer with
      | (Raise e, chain1) => (Raise e, web3, chain1)
      | (Ok tx_hash, chain1) =>
          match wait_for_transaction_receipt chain1 tx_hash with
          | (Raise e, chain2) => (Raise e, web3, chain2)
          | (Ok tx_receipt, chain2) =>
              let instance :=
                mkInstance cls (contractAddress tx_receipt) None in
              if register_for_tracing then
                let instance := mkInstance cls (contractAddress tx_receipt)
                                           (Some contract_name) in
                (Ok instance,
                 register_contract web3 (contractAddress tx_receipt) instance,
                 chain2)
              else (Ok instance, web3, chain2)
          end
      end
  end.
End Chain.

(** The registry calls a program can make on a connection object. *)
Inductive registry_call :=
| Register (address : string) (instance : ContractInstance)
| GetOrCreate.

Definition run_call (c : registry_call) (web3 : Web3) : Web3 :=
  match c with
  | Register a i => register_contract web3 a i
  | GetOrCreate => (get_or_create_contract_registry web3).2
  end.

Definition run_calls (cs : list registry_call) (web3 : Web3) : Web3 :=
  foldl (fun w c => run_call c w) web3 cs.

End Deploy.

(** ** Notions used to state the further properties *)

(** A contract proxy whose address has 20 bytes. *)
Definition valid_proxy (v : PyVal) : Prop :=
  ∃ c, v = PContract c ∧ length (address c) = 20%nat.

(** Sizes, in bytes, of the parts of the encoded arguments. *)
Definition bytes_size (b : bytes) : nat := (32 + Abi.ceil32 (length b))%nat.
Definition word_array_size {A} (l : list A) : nat := (32 + 32 * length l)%nat.
Definition bytes_array_size (ds : list bytes) : nat :=
  (32 + 32 * length ds + sum_list (bytes_size <$> ds))%nat.
Definition external_calls_size (calls : list (PyVal * bytes)) : nat :=
  (64 + word_array_size calls + bytes_array_size (snd <$> calls))%nat.
Definition execute_calls_args_size
    (incoming_assets : list PyVal) (min_incoming_asset_amounts : list Z)
    (spend_assets : list PyVal) (spend_asset_amounts : list Z)
    (external_calls : list (PyVal * bytes)) : nat :=
  (160 + word_array_size incoming_assets
   + word_array_size min_incoming_asset_amounts
   + word_array_size spend_assets
   + word_array_size spend_asset_amounts
   + (32 + Abi.ceil32 (external_calls_size external_calls)))%nat.

(** The threads on which a history invokes a caching factory. *)
Definition caching_threads
    (calls : list (Web3Factory.TunedWeb3Factory * Web3Factory.thread))
  : gset nat :=
  list_to_set
    (snd <$> filter (fun c => Web3Factory.thread_local_cache c.1 = true) calls).

(** The number of invocations of factories that do not cache. *)
Definition uncached_calls
    (calls : list (Web3Factory.TunedWeb3Factory * Web3Factory.thread)) : nat :=
  length (filter (fun c => Web3Factory.thread_local_cache c.1 = false) calls).

(** Connection [k] has been created and sits in no thread's slot. *)
Definition handed_out (k : nat) (w : Web3Factory.World) : Prop :=
  (k < Web3Factory.next_obj w)%nat
  ∧ ∀ t h, Web3Factory._web3_thread_local_cache w !! t = Some h →
           Web3Factory.obj_id h ≠ k.

(** No character of the string is a dot. *)
Fixpoint dot_free (s : string) : bool :=
  match s with
  | EmptyString => true
  | String c s' => negb (Ascii.eqb c ".") && dot_free s'
  end.

(** ** Further concrete inputs *)

Module ExecuteCallsExamples.
(** Stand-ins for the hash function and for web3's transaction
    builder. *)
Definition keccak (_ : bytes) : bytes := replicate 32 xab.
Definition build_transaction (c : Contract) (extension : PyVal)
    (action_id : Z) (call_args : bytes) : result (gmap string PyVal) :=
  Ok {[ "data" := PBytes call_args ]}.
Definition COMPTROLLER : Contract := mkContract (replicate 19 x00 ++ [xc0]).
Definition ADAPTER : Contract := mkContract (replicate 19 x00 ++ [xad]).
Definition MANAGER : Contract := mkContract (replicate 19 x00 ++ [x1f]).

(** The call arguments of the example swap sent through [ADAPTER]. *)
Definition call_args : bytes :=
  Eval vm_compute in
    match GenericAdapter.encode_call_on_integration_args
            (PContract ADAPTER)
            (ExecuteCalls.EXECUTE_CALLS_SELECTOR keccak)
            (PBytes Examples.execute_calls_encoded) with
    | Ok b => b
    | Raise _ => []
    end.
End ExecuteCallsExamples.

Module FurtherFactoryExamples.
Import Web3Factory.
Definition uncached : TunedWeb3Factory :=
  __init__ "https://mainnet.example" None false.
End FurtherFactoryExamples.

Module DeployExamples.
Import Deploy.
Definition erc20 : ProxyClass := mkProxyClass "ERC20Mock" [x60; x80].
Definition token_address : string :=
  "0x5FbDB2315678afecb367f032d93F642f64180aa3".
Definition token : ContractInstance :=
  mkInstance erc20 token_address (Some (Some "ERC20Mock")).
Definition fresh : Web3 := mkWeb3 None.
(** A chain that numbers its transactions and mines each deployment at
    one address. *)
Definition transact (chain : nat) (cls : ProxyClass) (args : list PyVal)
    (deployer : string) : result nat * nat :=
  (Ok chain, S chain).
Definition wait_for_transaction_receipt (chain : nat) (tx_hash : nat)
  : result TxReceipt * nat :=
  (Ok (mkReceipt token_address), chain).
Definition get_contract (web3 : Web3) (fname : string) : result ProxyClass :=
  Ok erc20.
End DeployExamples.


(** ** The result monad *)

Lemma bind_Ok_inv {A B} (m : result A) (f : A → result B) (b : B) :
  m ≫= f = Ok b → ∃ a, m = Ok a ∧ f a = Ok b.
Proof. destruct m as [a|e]; [eauto | discriminate]. Qed.

Lemma mapM_Ok_Forall2 {A B} (f : A → result B) (l : list A) (k : list B) :
  mapM f l = Ok k → Forall2 (fun x y => f x = Ok y) l k.
Proof.
  revert k. induction l as [|x l IH]; intros k H.
  - injection H as <-. constructor.
  - cbn [mapM] in H.
    apply bind_Ok_inv in H as (y & Hy & H).
    apply bind_Ok_inv in H as (k' & Hk' & H).
    injection H as <-. constructor; auto.
Qed.

Lemma mapM_Raise_elem {A B} (f : A → result B) (l : list A) (e : exn) :
  mapM f l = Raise e → ∃ x, x ∈ l ∧ f x = Raise e.
Proof.
  induction l as [|x l IH]; [discriminate|].
  cbn [mapM]. destruct (f x) as [y|e'] eqn:Hx.
  - cbn. destruct (mapM f l) as [k|e'']; [discriminate|].
    intros [= ->]. destruct IH as (x' & ? & ?); [done|].
    exists x'. split; [by right | done].
  - intros [= ->]. exists x. split; [by left | done].
Qed.

(** ** Big-endian integers *)

Section BigEndian.
Lemma Z_of_byte_of_Z z : Z_of_byte (byte_of_Z z) = z mod 256.
Proof.
  unfold Z_of_byte, byte_of_Z.
  assert (Hr : 0 <= z mod 256 < 256) by (apply Z.mod_pos_bound; lia).
  pose proof (Byte.to_of_N_option_map (Z.to_N (z mod 256))) as H.
  destruct (Byte.of_N (Z.to_N (z mod 256))) as [b|]; cbn in *.
  - destruct (N.leb_spec (Z.to_N (z mod 256)) 255); [|discriminate].
    injection H as ->. lia.
  - destruct (N.leb_spec (Z.to_N (z mod 256)) 255); [discriminate|lia].
Qed.

Lemma big_endian_to_int_snoc l b :
  big_endian_to_int (l ++ [b]) = big_endian_to_int l * 256 + Z_of_byte b.
Proof. unfold big_endian_to_int. by rewrite foldl_app. Qed.

Lemma length_int_to_big_endian n z : length (int_to_big_endian n z) = n.
Proof.
  revert z. induction n as [|n IH]; intros z; [done|].
  cbn [int_to_big_endian]. rewrite length_app, IH. cbn. lia.
Qed.

Lemma big_endian_roundtrip n z :
  big_endian_to_int (int_to_big_endian n z) = z mod 256 ^ Z.of_nat n.
Proof.
  revert z. induction n as [|n IH]; intros z.
  - cbn. by rewrite Z.mod_1_r.
  - cbn [int_to_big_endian].
    rewrite big_endian_to_int_snoc, IH, Z_of_byte_of_Z.
    rewrite Nat2Z.inj_succ, Z.pow_succ_r by lia.
    rewrite Z.rem_mul_r by lia. lia.
Qed.

Lemma big_endian_roundtrip_256 z :
  0 <= z <= Abi.UINT_256_MAX →
  big_endian_to_int (int_to_big_endian 32 z) = z.
Proof.
  intros Hz. rewrite big_endian_roundtrip.
  apply Z.mod_small. unfold Abi.UINT_256_MAX in Hz.
  change (256 ^ Z.of_nat 32) with (2 ^ 256). lia.
Qed.
End BigEndian.


(** ** Words, addresses and byte strings *)

Section Words.
Import Abi.

Lemma read_word_app w rest :
  length w = 32%nat → read_word (w ++ rest) = Some w.
Proof.
  intros Hw. unfold read_word.
  rewrite bool_decide_eq_true_2 by (rewrite length_app; lia).
  by rewrite take_app_length'.
Qed.

Lemma encode_uint_256_inv z w :
  encode_uint_256 z = Ok w →
  w = int_to_big_endian 32 z ∧ 0 <= z <= UINT_256_MAX.
Proof.
  unfold encode_uint_256. case_bool_decide; [|discriminate].
  by intros [= <-].
Qed.

Lemma length_encode_uint_256 z w :
  encode_uint_256 z = Ok w → length w = 32%nat.
Proof.
  intros [-> _]%encode_uint_256_inv. apply length_int_to_big_endian.
Qed.

Lemma decode_encode_uint_256 z w rest :
  encode_uint_256 z = Ok w → decode_uint_256 (w ++ rest) = Some z.
Proof.
  intros H. pose proof (length_encode_uint_256 _ _ H) as Hl.
  apply encode_uint_256_inv in H as [-> Hz].
  unfold decode_uint_256. rewrite read_word_app by done.
  cbn [fmap option_fmap option_map]. by rewrite big_endian_roundtrip_256.
Qed.

Lemma forallb_zero_replicate n :
  forallb is_zero_byte (replicate n x00) = true.
Proof. induction n; [done|]. cbn. by rewrite IHn. Qed.

Lemma encode_address_inv v w :
  encode_address v = Ok w →
  length (to_canonical_address v) = 20%nat
  ∧ w = replicate 12 x00 ++ to_canonical_address v.
Proof.
  unfold encode_address. destruct (is_address v) eqn:Hv; [|discriminate].
  intros [= <-].
  assert (length (to_canonical_address v) = 20%nat) as Hl
    by (destruct v; cbn in *; try discriminate; by case_bool_decide).
  split; [done|]. unfold zpad. by rewrite Hl.
Qed.

Lemma length_encode_address v w :
  encode_address v = Ok w → length w = 32%nat.
Proof.
  intros [Hl ->]%encode_address_inv.
  rewrite length_app, length_replicate. lia.
Qed.

Lemma decode_encode_address v w rest :
  encode_address v = Ok w →
  decode_address (w ++ rest) = Some (to_canonical_address v).
Proof.
  intros H. pose proof (length_encode_address _ _ H) as Hl.
  apply encode_address_inv in H as [Ha ->].
  unfold decode_address. rewrite read_word_app by done. cbn [mbind option_bind].
  rewrite take_app_length' by (by rewrite length_replicate).
  rewrite forallb_zero_replicate.
  by rewrite drop_app_length' by (by rewrite length_replicate).
Qed.

Lemma ceil32_ge n : (n ≤ ceil32 n)%nat.
Proof. unfold ceil32. lia. Qed.

Lemma encode_bytes_inv b w :
  encode_bytes b = Ok w →
  w = int_to_big_endian 32 (Z.of_nat (length b))
        ++ b ++ replicate (ceil32 (length b) - length b) x00
  ∧ 0 <= Z.of_nat (length b) <= UINT_256_MAX.
Proof.
  unfold encode_bytes. intros (sz & Hsz & [= <-])%bind_Ok_inv.
  apply encode_uint_256_inv in Hsz as [-> ?]. done.
Qed.

Lemma length_encode_bytes b w :
  encode_bytes b = Ok w → length w = (32 + ceil32 (length b))%nat.
Proof.
  intros [-> _]%encode_bytes_inv. pose proof (ceil32_ge (length b)).
  rewrite !length_app, length_int_to_big_endian, length_replicate. lia.
Qed.

Lemma decode_encode_bytes b w rest :
  encode_bytes b = Ok w → decode_bytes (w ++ rest) = Some b.
Proof.
  intros H. apply encode_bytes_inv in H as [-> Hn].
  pose proof (ceil32_ge (length b)) as Hc.
  unfold decode_bytes. rewrite <- app_assoc.
  rewrite (decode_encode_uint_256 (Z.of_nat (length b)))
    by (unfold encode_uint_256; by rewrite bool_decide_eq_true_2).
  cbn [mbind option_bind].
  rewrite drop_app_length' by (by rewrite length_int_to_big_endian).
  rewrite bool_decide_eq_true_2
    by (rewrite !length_app; lia).
  rewrite Nat2Z.id.
  rewrite bool_decide_eq_true_2
    by (rewrite !length_app, length_replicate; lia).
  rewrite (take_app_length' (b ++ _))
    by (rewrite length_app, length_replicate; lia).
  rewrite drop_app_length, forallb_zero_replicate. cbn.
  by rewrite <- app_assoc, take_app_length.
Qed.
End Words.


(** ** Head/tail layout *)

Section Layout.
Import Abi.

Lemma length_concat_words (chunks : list bytes) :
  Forall word_sized chunks →
  length (concat chunks) = (32 * length chunks)%nat.
Proof.
  induction 1 as [|c chunks Hc _ IH]; [done|].
  cbn [concat]. rewrite length_app, IH, Hc. cbn [length]. lia.
Qed.

Lemma drop_concat_words (chunks : list bytes) (rest : bytes) (i : nat) :
  Forall word_sized chunks → (i ≤ length chunks)%nat →
  drop (32 * i) (concat chunks ++ rest) = concat (drop i chunks) ++ rest.
Proof.
  intros H. revert i. induction H as [|c chunks Hc _ IH]; intros i Hi.
  - cbn [length] in Hi. by replace i with 0%nat by lia.
  - destruct i as [|i]; [done|].
    cbn [concat length] in *. rewrite <- app_assoc.
    replace (32 * S i)%nat with (length c + 32 * i)%nat by (rewrite Hc; lia).
    rewrite drop_app_add. cbn [drop]. apply IH. lia.
Qed.

Lemma length_tail_offsets_from acc (tails : list bytes) :
  length (tail_offsets_from acc tails) = length tails.
Proof.
  revert acc. induction tails as [|t ts IH]; intros acc; [done|].
  cbn. by rewrite IH.
Qed.

Lemma lookup_tail_offsets_from acc (tails : list bytes) i t :
  tails !! i = Some t →
  tail_offsets_from acc tails !! i
  = Some (acc + length (concat (take i tails)))%nat.
Proof.
  revert acc i. induction tails as [|t' ts IH]; intros acc i Hi; [done|].
  destruct i as [|i].
  - cbn. f_equal. lia.
  - cbn [tail_offsets_from lookup list_lookup take concat].
    cbn in Hi. rewrite (IH _ _ Hi), length_app. f_equal. lia.
Qed.

Lemma offset_heads_words tails heads :
  offset_heads tails = Ok heads →
  Forall word_sized heads ∧ length heads = length tails.
Proof.
  intros H%mapM_Ok_Forall2. split.
  - eapply Forall2_Forall_r; [exact H|].
    apply Forall_forall. intros off _ h. apply length_encode_uint_256.
  - by rewrite <- (Forall2_length _ _ _ H), length_tail_offsets_from.
Qed.

Lemma head_tail_layout {A} (dec : bytes → option A)
    (tails heads : list bytes) (rest : bytes) (i : nat) (tail : bytes) :
  offset_heads tails = Ok heads →
  tails !! i = Some tail →
  head_tail dec (concat heads ++ concat tails ++ rest) (32 * i)
  = dec (tail ++ concat (drop (S i) tails) ++ rest).
Proof.
  intros Hh Hi.
  destruct (offset_heads_words _ _ Hh) as [Hw Hlen].
  pose proof (lookup_lt_Some _ _ _ Hi) as Hlt.
  pose proof (lookup_tail_offsets_from 0 _ _ _ Hi) as Hoff.
  apply mapM_Ok_Forall2 in Hh.
  destruct (Forall2_lookup_l _ _ _ _ _ Hh Hoff) as (h & Hhi & Henc).
  unfold head_tail.
  rewrite drop_concat_words by (done || lia).
  rewrite (drop_S _ _ _ Hhi). cbn [concat]. rewrite <- !app_assoc.
  rewrite (decode_encode_uint_256 _ _ _ Henc). cbn [mbind option_bind].
  assert (concat tails
          = concat (take i tails) ++ tail ++ concat (drop (S i) tails)) as ->.
  { rewrite <- (take_drop_middle _ _ _ Hi) at 1. by rewrite concat_app. }
  rewrite bool_decide_eq_true_2.
  2:{ rewrite !length_app, (length_concat_words heads) by done. lia. }
  rewrite Nat2Z.id.
  replace (32 * length tails + (0 + length (concat (take i tails))))%nat
    with (length (concat heads) + length (concat (take i tails)))%nat
    by (rewrite (length_concat_words heads) by done; lia).
  rewrite drop_app_add, <- !app_assoc. by rewrite drop_app_length.
Qed.

Lemma sum_list_head_lengths (tails : list bytes) :
  sum_list (head_chunk_length <$>
            ((fun c : bool * bytes => if c.1 then None else Some c.2) <$>
             (pair true <$> tails)))
  = (32 * length tails)%nat.
Proof.
  induction tails as [|t ts IH]; [done|].
  cbn [fmap list_fmap sum_list length] in *. rewrite IH. cbn. lia.
Qed.

Lemma encode_tuple_dynamic (tails : list bytes) :
  encode_tuple (pair true <$> tails)
  = heads ← offset_heads tails; Ok (concat heads ++ concat tails).
Proof.
  unfold encode_tuple, offset_heads.
  rewrite sum_list_head_lengths.
  assert (((fun c : bool * bytes => if c.1 then c.2 else []) <$>
           (pair true <$> tails)) = tails) as ->.
  { rewrite <- list_fmap_compose. rewrite <- (list_fmap_id tails) at 2.
    by apply list_fmap_ext. }
  generalize (32 * length tails)%nat as hl.
  generalize 0%nat as acc. intros acc hl.
  assert (∀ offs : list nat,
    length offs = length tails →
    mapM (fun co : option bytes * nat =>
            match co.1 with
            | None => encode_uint_256 (Z.of_nat (hl + co.2))
            | Some chunk => Ok chunk
            end)
         (zip ((fun c : bool * bytes => if c.1 then None else Some c.2) <$>
               (pair true <$> tails)) offs)
    = mapM (fun offset => encode_uint_256 (Z.of_nat (hl + offset))) offs) as ->;
    [|done|apply length_tail_offsets_from].
  induction tails as [|t ts IH]; intros [|o offs] Hlen; try done.
  cbn [fmap list_fmap zip zip_with mapM]. cbn [fst snd].
  rewrite IH; [done|]. cbn in Hlen. lia.
Qed.

Lemma encode_elements_dynamic (tails : list bytes) :
  encode_elements true tails
  = heads ← offset_heads tails; Ok (concat heads ++ concat tails).
Proof.
  unfold encode_elements, offset_heads. cbn [negb orb].
  case_bool_decide as Hl; [|done].
  by destruct tails.
Qed.
End Layout.


(** ** Arrays and tuples *)

Section Arrays.
Import Abi.

Lemma encode_array_inv {A} (dyn : bool) (enc : A → result bytes)
    (vs : list A) (w : bytes) :
  encode_array dyn enc vs = Ok w →
  ∃ chunks sz elements,
    Forall2 (fun v c => enc v = Ok c) vs chunks
    ∧ encode_uint_256 (Z.of_nat (length vs)) = Ok sz
    ∧ encode_elements dyn chunks = Ok elements
    ∧ w = sz ++ elements.
Proof.
  unfold encode_array.
  intros (chunks & Hc & H)%bind_Ok_inv.
  apply bind_Ok_inv in H as (sz & Hsz & H).
  apply bind_Ok_inv in H as (el & Hel & [= <-]).
  exists chunks, sz, el. by apply mapM_Ok_Forall2 in Hc.
Qed.

Lemma decode_array_seq {A} (dyn : bool) (dec : bytes → option A)
    (sz frame : bytes) (n : nat) (vs : list A) :
  encode_uint_256 (Z.of_nat n) = Ok sz →
  (32 * n ≤ length frame)%nat →
  length vs = n →
  (∀ i v, vs !! i = Some v →
     (if dyn then head_tail dec frame (32 * i)
      else dec (drop (32 * i) frame)) = Some v) →
  decode_array dyn dec (sz ++ frame) = Some vs.
Proof.
  intros Hsz Hlen Hn Hitem. unfold decode_array.
  rewrite (decode_encode_uint_256 _ _ _ Hsz). cbn [mbind option_bind].
  rewrite drop_app_length' by (by rewrite (length_encode_uint_256 _ _ Hsz)).
  rewrite bool_decide_eq_true_2 by lia.
  rewrite Nat2Z.id. apply mapM_Some.
  apply Forall2_same_length_lookup_2; [by rewrite length_seq|].
  intros i j v [-> _]%lookup_seq Hv. cbn [Nat.add]. by apply Hitem.
Qed.

Lemma decode_encode_array_static {A B} (enc : A → result bytes)
    (dec : bytes → option B) (f : A → B) (vs : list A) (w rest : bytes) :
  (∀ v c, enc v = Ok c → word_sized c) →
  (∀ v c tl, enc v = Ok c → dec (c ++ tl) = Some (f v)) →
  encode_array false enc vs = Ok w →
  decode_array false dec (w ++ rest) = Some (f <$> vs).
Proof.
  intros Hword Hdec (chunks & sz & el & Hc & Hsz & Hel & ->)%encode_array_inv.
  injection Hel as <-.
  assert (Forall word_sized chunks) as Hw.
  { eapply Forall2_Forall_r; [exact Hc|].
    apply Forall_forall. intros v _ c. apply Hword. }
  pose proof (Forall2_length _ _ _ Hc) as Hlen.
  rewrite <- app_assoc.
  apply (decode_array_seq false dec sz _ (length vs)); [done| |by rewrite length_fmap|].
  - rewrite length_app, length_concat_words by done. lia.
  - intros i y Hy. rewrite list_lookup_fmap in Hy.
    destruct (vs !! i) as [v|] eqn:Hv; [|done]. injection Hy as <-.
    destruct (Forall2_lookup_l _ _ _ _ _ Hc Hv) as (c & Hci & Henc).
    rewrite drop_concat_words
      by (done || apply lookup_lt_Some in Hci; lia).
    rewrite (drop_S _ _ _ Hci). cbn [concat]. rewrite <- app_assoc.
    by apply Hdec.
Qed.

Lemma decode_encode_array_dynamic {A} (enc : A → result bytes)
    (dec : bytes → option A) (vs : list A) (w rest : bytes) :
  (∀ v c tl, enc v = Ok c → dec (c ++ tl) = Some v) →
  encode_array true enc vs = Ok w →
  decode_array true dec (w ++ rest) = Some vs.
Proof.
  intros Hdec (chunks & sz & el & Hc & Hsz & Hel & ->)%encode_array_inv.
  rewrite encode_elements_dynamic in Hel.
  apply bind_Ok_inv in Hel as (heads & Hh & [= <-]).
  destruct (offset_heads_words _ _ Hh) as [Hw Hhl].
  pose proof (Forall2_length _ _ _ Hc) as Hlen.
  rewrite <- !app_assoc.
  apply (decode_array_seq true dec sz _ (length vs)); [done| |done|].
  - rewrite !length_app, length_concat_words by done. lia.
  - intros i v Hv.
    destruct (Forall2_lookup_l _ _ _ _ _ Hc Hv) as (c & Hci & Henc).
    rewrite (head_tail_layout dec chunks heads rest i c) by done.
    by apply Hdec.
Qed.

Lemma head_tail_layout_nil {A} (dec : bytes → option A)
    (tails heads : list bytes) (i : nat) (tail : bytes) :
  offset_heads tails = Ok heads →
  tails !! i = Some tail →
  head_tail dec (concat heads ++ concat tails) (32 * i)
  = dec (tail ++ concat (drop (S i) tails)).
Proof.
  intros Hh Hi.
  pose proof (head_tail_layout dec tails heads [] i tail Hh Hi) as H.
  by rewrite !app_nil_r in H.
Qed.

Lemma decode_encode_address_array vs w rest :
  encode_address_array vs = Ok w →
  decode_address_array (w ++ rest) = Some (to_canonical_address <$> vs).
Proof.
  apply decode_encode_array_static.
  - intros v c. apply length_encode_address.
  - intros v c tl. apply decode_encode_address.
Qed.

Lemma decode_encode_uint256_array vs w rest :
  encode_uint256_array vs = Ok w →
  decode_uint256_array (w ++ rest) = Some vs.
Proof.
  intros H. rewrite <- (list_fmap_id vs). revert H.
  apply decode_encode_array_static.
  - intros v c. apply length_encode_uint_256.
  - intros v c tl. apply decode_encode_uint_256.
Qed.

Lemma decode_encode_bytes_array vs w rest :
  encode_bytes_array vs = Ok w →
  decode_bytes_array (w ++ rest) = Some vs.
Proof.
  apply decode_encode_array_dynamic.
  intros v c tl. apply decode_encode_bytes.
Qed.

Lemma decode_encode_external_calls addresses datas w :
  encode_external_calls addresses datas = Ok w →
  decode_external_calls w = Some (to_canonical_address <$> addresses, datas).
Proof.
  unfold encode_external_calls.
  intros (a & Ha & H)%bind_Ok_inv.
  apply bind_Ok_inv in H as (d & Hd & H).
  change [(true, a); (true, d)] with (pair true <$> [a; d]) in H.
  rewrite encode_tuple_dynamic in H.
  apply bind_Ok_inv in H as (heads & Hh & [= <-]).
  unfold decode_external_calls.
  rewrite (head_tail_layout_nil _ [a; d] heads 0 a Hh eq_refl).
  rewrite (decode_encode_address_array _ _ _ Ha). cbn [mbind option_bind].
  rewrite (head_tail_layout_nil _ [a; d] heads 1 d Hh eq_refl).
  by rewrite (decode_encode_bytes_array _ _ _ Hd).
Qed.

Lemma decode_encode_execute_calls incoming mins spend amounts calls_data w :
  encode_execute_calls incoming mins spend amounts calls_data = Ok w →
  decode_execute_calls w
  = Some (to_canonical_address <$> incoming, mins,
          to_canonical_address <$> spend, amounts, calls_data).
Proof.
  unfold encode_execute_calls.
  intros (c0 & H0 & H)%bind_Ok_inv.
  apply bind_Ok_inv in H as (c1 & H1 & H).
  apply bind_Ok_inv in H as (c2 & H2 & H).
  apply bind_Ok_inv in H as (c3 & H3 & H).
  apply bind_Ok_inv in H as (c4 & H4 & H).
  change [(true, c0); (true, c1); (true, c2); (true, c3); (true, c4)]
    with (pair true <$> [c0; c1; c2; c3; c4]) in H.
  rewrite encode_tuple_dynamic in H.
  apply bind_Ok_inv in H as (heads & Hh & [= <-]).
  unfold decode_execute_calls.
  rewrite (head_tail_layout_nil _ [c0; c1; c2; c3; c4] heads 0 c0 Hh eq_refl).
  rewrite (decode_encode_address_array _ _ _ H0). cbn [mbind option_bind].
  rewrite (head_tail_layout_nil _ [c0; c1; c2; c3; c4] heads 1 c1 Hh eq_refl).
  rewrite (decode_encode_uint256_array _ _ _ H1). cbn [mbind option_bind].
  rewrite (head_tail_layout_nil _ [c0; c1; c2; c3; c4] heads 2 c2 Hh eq_refl).
  rewrite (decode_encode_address_array _ _ _ H2). cbn [mbind option_bind].
  rewrite (head_tail_layout_nil _ [c0; c1; c2; c3; c4] heads 3 c3 Hh eq_refl).
  rewrite (decode_encode_uint256_array _ _ _ H3). cbn [mbind option_bind].
  rewrite (head_tail_layout_nil _ [c0; c1; c2; c3; c4] heads 4 c4 Hh eq_refl).
  by rewrite (decode_encode_bytes _ _ _ H4).
Qed.
End Arrays.


(** ** Asset resolution *)

Lemma bind_Raise_inv {A B} (m : result A) (f : A → result B) (e : exn) :
  m ≫= f = Raise e → m = Raise e ∨ ∃ a, m = Ok a ∧ f a = Raise e.
Proof.
  destruct m as [a|e']; intros H; [right; eauto|].
  left. change (@Raise B e' = Raise e) in H. by injection H as ->.
Qed.

Lemma mapM_result_fmap {A B C} (g : A → B) (f : B → result C) (l : list A) :
  mapM (fun x => f (g x)) l = mapM f (g <$> l).
Proof.
  induction l as [|x l IH]; [done|].
  cbn [mapM fmap list_fmap]. by rewrite IH.
Qed.

(** A list comprehension over a concatenation runs over the first part,
    then over the second, and stops at the first exception. *)
Lemma mapM_result_app {A B} (f : A → result B) (l1 l2 : list A) :
  mapM f (l1 ++ l2)
  = match mapM f l1 with
    | Ok r1 => match mapM f l2 with
               | Ok r2 => Ok (r1 ++ r2)
               | Raise e => Raise e
               end
    | Raise e => Raise e
    end.
Proof.
  induction l1 as [|x l1 IH]; cbn [app mapM].
  - change (mapM f l2 = match mapM f l2 with
                        | Ok r2 => Ok ([] ++ r2) | Raise e => Raise e end).
    by destruct (mapM f l2).
  - destruct (f x) as [y|e]; [|done]. cbn [mbind result_bind].
    rewrite IH. destruct (mapM f l1) as [r1|e]; [|done].
    cbn [mbind result_bind]. by destruct (mapM f l2).
Qed.

Lemma mapM_first_Raise {A B} (f : A → result B) l1 r1 x e l2 :
  mapM f l1 = Ok r1 → f x = Raise e → mapM f (l1 ++ x :: l2) = Raise e.
Proof.
  intros H1 Hx. rewrite mapM_result_app, H1. cbn [mapM]. by rewrite Hx.
Qed.

Section Addressify.
Import GenericAdapter.

Lemma HexAddress_is_no_class v : py_eq (type_ v) HexAddress = false.
Proof. done. Qed.

Lemma addressify_contract c :
  _addressify (PContract c) = Ok (PAddress (address c)).
Proof. done. Qed.

Lemma addressify_not_contract v :
  isinstance v ClsContract = false →
  _addressify v = Raise (AssertionError (GotBadAsset v)).
Proof.
  intros Hv. unfold _addressify.
  by rewrite Hv, HexAddress_is_no_class.
Qed.

Lemma isinstance_Contract v :
  isinstance v ClsContract = true ↔ ∃ c, v = PContract c.
Proof.
  split; [|by intros [c ->]].
  destruct v; try discriminate. eauto.
Qed.

Lemma addressify_Ok_inv v r :
  _addressify v = Ok r → ∃ c, v = PContract c ∧ r = PAddress (address c).
Proof.
  destruct (isinstance v ClsContract) eqn:Hv.
  - apply isinstance_Contract in Hv as [c ->].
    rewrite addressify_contract. intros [= <-]. eauto.
  - by rewrite addressify_not_contract.
Qed.

Lemma addressify_Raise_inv v e :
  _addressify v = Raise e →
  isinstance v ClsContract = false ∧ e = AssertionError (GotBadAsset v).
Proof.
  destruct (isinstance v ClsContract) eqn:Hv.
  - apply isinstance_Contract in Hv as [c ->]. by rewrite addressify_contract.
  - rewrite addressify_not_contract by done. by intros [= <-].
Qed.

Lemma addressify_collection_Ok_inv assets rs :
  _addressify_collection assets = Ok rs →
  ∃ cs, assets = PContract <$> cs ∧ rs = (PAddress ∘ address) <$> cs.
Proof.
  unfold _addressify_collection. intros H%mapM_Ok_Forall2.
  induction H as [|v r assets rs Hv _ (cs & -> & ->)].
  - by exists [].
  - apply addressify_Ok_inv in Hv as (c & -> & ->). by exists (c :: cs).
Qed.

Lemma addressify_collection_Raise_inv assets e :
  _addressify_collection assets = Raise e →
  ∃ a, a ∈ assets ∧ isinstance a ClsContract = false
       ∧ e = AssertionError (GotBadAsset a).
Proof.
  intros (a & Ha & [? ?]%addressify_Raise_inv)%mapM_Raise_elem. eauto.
Qed.

Lemma addressify_collection_resolves (proxies : list Contract) :
  _addressify_collection (PContract <$> proxies)
  = Ok ((PAddress ∘ address) <$> proxies).
Proof.
  unfold _addressify_collection.
  induction proxies as [|c cs IH]; [done|].
  cbn [fmap list_fmap mapM]. rewrite addressify_contract.
  cbn [mbind result_bind]. cbn [fmap list_fmap] in IH. by rewrite IH.
Qed.

Lemma canonical_resolved (cs : list Contract) :
  Abi.to_canonical_address <$> ((PAddress ∘ address) <$> cs) = address <$> cs.
Proof. rewrite <- list_fmap_compose. by apply list_fmap_ext. Qed.

Lemma rewrap_Ok_inv addresses datas r w :
  rewrap_encoding_error addresses datas r = Ok w → r = Ok w.
Proof. destruct r as [|[]]; done. Qed.
End Addressify.


(** ** What the encoders raise *)

Section EncodingErrors.
Import Abi.

Lemma mapM_raises {A B} (P : exn → Prop) (f : A → result B) l e :
  (∀ x e', f x = Raise e' → P e') → mapM f l = Raise e → P e.
Proof. intros Hf (x & _ & Hx)%mapM_Raise_elem. eauto. Qed.

Lemma encode_uint_256_raises z e :
  encode_uint_256 z = Raise e → is_encoding_error e.
Proof.
  unfold encode_uint_256. case_bool_decide; [done|].
  intros [= <-]. by eexists.
Qed.

Lemma encode_address_raises v e :
  encode_address v = Raise e → is_encoding_error e.
Proof.
  unfold encode_address. destruct (is_address v); [done|].
  intros [= <-]. by eexists.
Qed.

Lemma encode_bytes_raises b e :
  encode_bytes b = Raise e → is_encoding_error e.
Proof.
  unfold encode_bytes.
  intros [H|(? & _ & ?)]%bind_Raise_inv; [|done].
  by eapply encode_uint_256_raises.
Qed.

Lemma encode_elements_raises dyn chunks e :
  encode_elements dyn chunks = Raise e → is_encoding_error e.
Proof.
  unfold encode_elements.
  destruct (negb dyn || bool_decide (length chunks = 0%nat)); [done|].
  intros [H|(? & _ & ?)]%bind_Raise_inv; [|done].
  revert H. apply mapM_raises. intros off e'. apply encode_uint_256_raises.
Qed.

Lemma encode_array_raises {A} dyn (enc : A → result bytes) (vs : list A) e :
  (∀ v e', enc v = Raise e' → is_encoding_error e') →
  encode_array dyn enc vs = Raise e → is_encoding_error e.
Proof.
  intros Henc. unfold encode_array.
  intros [H|(chunks & _ & H)]%bind_Raise_inv;
    [by eapply mapM_raises|].
  apply bind_Raise_inv in H as [H|(sz & _ & H)];
    [by eapply encode_uint_256_raises|].
  apply bind_Raise_inv in H as [H|(? & _ & ?)]; [|done].
  by eapply encode_elements_raises.
Qed.

Lemma encode_tuple_raises components e :
  encode_tuple components = Raise e → is_encoding_error e.
Proof.
  unfold encode_tuple.
  intros [H|(? & _ & ?)]%bind_Raise_inv; [|done].
  revert H. apply mapM_raises. intros [[c|] off] e'; cbn; [done|].
  apply encode_uint_256_raises.
Qed.

Lemma encode_external_calls_raises addresses datas e :
  encode_external_calls addresses datas = Raise e → is_encoding_error e.
Proof.
  unfold encode_external_calls.
  intros [H|(a & _ & H)]%bind_Raise_inv.
  { revert H. apply encode_array_raises, encode_address_raises. }
  apply bind_Raise_inv in H as [H|(d & _ & H)].
  { revert H. apply encode_array_raises, encode_bytes_raises. }
  by eapply encode_tuple_raises.
Qed.
End EncodingErrors.

Section GenericAdapterClaims.
Import GenericAdapter.

(** X20.  Whenever [encode_generic_adapter_execute_calls_args] returns a
    byte string, every asset reference was resolved to an address, and
    decoding the string as
    [['address[]','uint256[]','address[]','uint256[]','bytes']] gives back
    the resolved incoming assets, the minimum incoming amounts, the
    resolved spend assets, the spend amounts and an inner byte string
    which, decoded as [['address[]','bytes[]']], gives back the resolved
    targets and the call data of the external calls. *)
Theorem execute_calls_args_roundtrip
    (incoming_assets : list PyVal) (min_incoming_asset_amounts : list Z)
    (spend_assets : list PyVal) (spend_asset_amounts : list Z)
    (external_calls : list (PyVal * bytes)) (encoded : bytes) :
  encode_generic_adapter_execute_calls_args
    incoming_assets min_incoming_asset_amounts
    spend_assets spend_asset_amounts external_calls = Ok encoded →
  ∃ (incoming spend targets : list address_bytes) (calls_data : bytes),
    _addressify_collection incoming_assets = Ok (PAddress <$> incoming)
    ∧ _addressify_collection spend_assets = Ok (PAddress <$> spend)
    ∧ _addressify_collection (fst <$> external_calls) = Ok (PAddress <$> targets)
    ∧ Abi.decode_execute_calls encoded
      = Some (incoming, min_incoming_asset_amounts,
              spend, spend_asset_amounts, calls_data)
    ∧ Abi.decode_external_calls calls_data
      = Some (targets, snd <$> external_calls).
Proof.
  unfold encode_generic_adapter_execute_calls_args.
  intros (addresses & Ht & H)%bind_Ok_inv.
  apply bind_Ok_inv in H as (calls_data & Hc%rewrap_Ok_inv & H).
  apply bind_Ok_inv in H as (incoming & Hi & H).
  apply bind_Ok_inv in H as (spend & Hs & H).
  rewrite (mapM_result_fmap fst _addressify) in Ht.
  fold (_addressify_collection (fst <$> external_calls)) in Ht.
  rewrite Ht, Hi, Hs.
  apply addressify_collection_Ok_inv in Ht as (tcs & _ & ->).
  apply addressify_collection_Ok_inv in Hi as (ics & _ & ->).
  apply addressify_collection_Ok_inv in Hs as (scs & _ & ->).
  apply decode_encode_external_calls in Hc.
  apply decode_encode_execute_calls in H.
  rewrite canonical_resolved in Hc. rewrite !canonical_resolved in H.
  exists (address <$> ics), (address <$> scs), (address <$> tcs), calls_data.
  by rewrite <- !list_fmap_compose.
Qed.

Lemma assert_Ok_inv c m u : assert_ c m = Ok u → c = true.
Proof. by destruct c. Qed.

(** C7.  For every adapter, [encode_call_on_integration_args] raises when
    the selector is not exactly 4 bytes long or the encoded call
    arguments are empty, and it returns an envelope only when the
    selector has 4 bytes and the call arguments are not empty. *)
Theorem call_on_integration_args_preconditions
    (adapter selector encoded_call_args : PyVal) :
  (length (bytes_content selector) ≠ 4%nat
   ∨ bytes_content encoded_call_args = [] →
   is_raise (encode_call_on_integration_args
               adapter selector encoded_call_args) = true)
  ∧ (∀ out,
       encode_call_on_integration_args adapter selector encoded_call_args
       = Ok out →
       length (bytes_content selector) = 4%nat
       ∧ bytes_content encoded_call_args ≠ []).
Proof.
  assert (∀ out,
    encode_call_on_integration_args adapter selector encoded_call_args
    = Ok out →
    length (bytes_content selector) = 4%nat
    ∧ bytes_content encoded_call_args ≠ []) as Honly.
  { unfold encode_call_on_integration_args. intros out H.
    apply bind_Ok_inv in H as (? & _ & H).
    apply bind_Ok_inv in H as (? & _ & H).
    apply bind_Ok_inv in H as (? & Hsel%assert_Ok_inv & H).
    apply bind_Ok_inv in H as (? & Hargs%assert_Ok_inv & _).
    apply bool_decide_eq_true in Hsel, Hargs. split; [done|].
    intros Hnil. rewrite Hnil in Hargs. cbn in Hargs. lia. }
  split; [|done].
  intros Hbad.
  destruct (encode_call_on_integration_args adapter selector encoded_call_args)
    as [out|e]; [|done].
  destruct (Honly out eq_refl) as [? ?]. by destruct Hbad.
Qed.

(** C7, witness: a 3-byte selector, empty call arguments, and a call
    that satisfies both preconditions. *)
Lemma call_on_integration_args_preconditions_witness :
  is_raise (encode_call_on_integration_args
              (PContract Examples.ROUTER) (PBytes [xde; xad; xbe])
              (PBytes [x01])) = true
  ∧ is_raise (encode_call_on_integration_args
                (PContract Examples.ROUTER) (PBytes Examples.selector)
                (PBytes [])) = true
  ∧ encode_call_on_integration_args
      (PContract Examples.ROUTER) (PBytes Examples.selector) (PBytes [x01])
    = Ok Examples.call_on_integration_encoded
  ∧ length (bytes_content (PBytes Examples.selector)) = 4%nat
  ∧ bytes_content (PBytes [x01]) ≠ [].
Proof.
  split; [|split; [|split]].
  - apply (proj1 (call_on_integration_args_preconditions
                    (PContract Examples.ROUTER) (PBytes [xde; xad; xbe])
                    (PBytes [x01]))).
    left. cbn. lia.
  - apply (proj1 (call_on_integration_args_preconditions
                    (PContract Examples.ROUTER) (PBytes Examples.selector)
                    (PBytes []))).
    right. reflexivity.
  - vm_compute. reflexivity.
  - apply (proj2 (call_on_integration_args_preconditions
                    (PContract Examples.ROUTER) (PBytes Examples.selector)
                    (PBytes [x01]))
             Examples.call_on_integration_encoded).
    vm_compute. reflexivity.
Defined.

(** C6.  What [_addressify] does on each input shape.  A contract proxy
    gives its address and a value that is no asset reference is
    refused, as claimed; a raw address string is refused as well: the
    test [type(asset) == HexAddress] compares a class with a [NewType]
    alias and is false, so the assertion fails and the final
    [return asset] is never reached. *)
Theorem addressify_shapes :
  (∀ c, _addressify (PContract c) = Ok (PAddress (address c)))
  ∧ (∀ a, _addressify (PAddress a)
          = Raise (AssertionError (GotBadAsset (PAddress a))))
  ∧ (∀ v, is_asset_reference v = false →
          _addressify v = Raise (AssertionError (GotBadAsset v))).
Proof.
  split; [done|]. split; [done|].
  intros v Hv. apply addressify_not_contract. by destruct v.
Qed.

(** C2, counterexample.  One incoming asset paired with two minimum
    amounts: the lengths differ and the call returns a byte string. *)
Lemma length_mismatch_not_rejected :
  length [PContract Examples.WETH] ≠ length [1; 2]
  ∧ is_raise (encode_generic_adapter_execute_calls_args
                [PContract Examples.WETH] [1; 2]
                [PContract Examples.USDC] [500000000]
                [(PContract Examples.ROUTER, Examples.swap_calldata)]) = false.
Proof. split; [cbn; lia | vm_compute; reflexivity]. Qed.

(** An asset that is not a contract proxy stops the call. *)
Lemma not_a_proxy_raises
    (incoming_assets : list PyVal) (min_incoming_asset_amounts : list Z)
    (spend_assets : list PyVal) (spend_asset_amounts : list Z)
    (external_calls : list (PyVal * bytes)) (a : PyVal) :
  a ∈ (fst <$> external_calls) ++ incoming_assets ++ spend_assets →
  isinstance a ClsContract = false →
  ∃ e,
    encode_generic_adapter_execute_calls_args
      incoming_assets min_incoming_asset_amounts
      spend_assets spend_asset_amounts external_calls = Raise e
    ∧ ((∃ b, b ∈ (fst <$> external_calls) ++ incoming_assets ++ spend_assets
             ∧ isinstance b ClsContract = false
             ∧ e = AssertionError (GotBadAsset b))
       ∨ (∃ addresses,
             _addressify_collection (fst <$> external_calls) = Ok addresses
             ∧ e = EncodingError
                     (CouldNotEncode addresses (snd <$> external_calls)))).
Proof.
  intros Ha Hbad. unfold encode_generic_adapter_execute_calls_args.
  rewrite (mapM_result_fmap fst _addressify).
  fold (_addressify_collection (fst <$> external_calls)).
  destruct (_addressify_collection (fst <$> external_calls))
    as [addresses|e0] eqn:Ht.
  2:{ apply addressify_collection_Raise_inv in Ht as (b & Hb & Hnc & ->).
      eexists. split; [done|]. left. exists b.
      rewrite !elem_of_app. auto. }
  cbn [mbind result_bind].
  destruct (Abi.encode_external_calls addresses
              ((fun t : PyVal * bytes => t.2) <$> external_calls))
    as [calls_data|e1] eqn:Hc.
  2:{ apply encode_external_calls_raises in Hc as [x ->].
      eexists. split; [done|]. right. by exists addresses. }
  cbn [rewrap_encoding_error mbind result_bind].
  destruct (_addressify_collection incoming_assets) as [incoming|e2] eqn:Hi.
  2:{ apply addressify_collection_Raise_inv in Hi as (b & Hb & Hnc & ->).
      eexists. split; [done|]. left. exists b.
      rewrite !elem_of_app. auto. }
  cbn [mbind result_bind].
  destruct (_addressify_collection spend_assets) as [spend|e3] eqn:Hs.
  2:{ apply addressify_collection_Raise_inv in Hs as (b & Hb & Hnc & ->).
      eexists. split; [done|]. left. exists b.
      rewrite !elem_of_app. auto. }
  exfalso.
  apply addressify_collection_Ok_inv in Ht as (tcs & Ht & _).
  apply addressify_collection_Ok_inv in Hi as (ics & Hi & _).
  apply addressify_collection_Ok_inv in Hs as (scs & Hs & _).
  rewrite Ht, Hi, Hs, <- !fmap_app in Ha.
  apply list_elem_of_fmap in Ha as (c & -> & _). done.
Qed.

(** The error of the call is the first one met when resolving the call
    targets, the incoming assets and the spend assets in this order,
    unless the external calls fail to encode once their targets are
    resolved. *)
Lemma execute_calls_args_raise_order
    (incoming_assets : list PyVal) (min_incoming_asset_amounts : list Z)
    (spend_assets : list PyVal) (spend_asset_amounts : list Z)
    (external_calls : list (PyVal * bytes)) (e : exn) :
  _addressify_collection
    ((fst <$> external_calls) ++ incoming_assets ++ spend_assets) = Raise e →
  encode_generic_adapter_execute_calls_args
    incoming_assets min_incoming_asset_amounts
    spend_assets spend_asset_amounts external_calls = Raise e
  ∨ ∃ addresses,
      _addressify_collection (fst <$> external_calls) = Ok addresses
      ∧ encode_generic_adapter_execute_calls_args
          incoming_assets min_incoming_asset_amounts
          spend_assets spend_asset_amounts external_calls
        = Raise (EncodingError
                   (CouldNotEncode addresses (snd <$> external_calls))).
Proof.
  unfold encode_generic_adapter_execute_calls_args, _addressify_collection.
  rewrite (mapM_result_fmap fst _addressify), !mapM_result_app.
  destruct (mapM _addressify (fst <$> external_calls))
    as [addresses|e0]; [|intros [= ->]; by left].
  cbn [mbind result_bind].
  destruct (Abi.encode_external_calls addresses
              ((fun t : PyVal * bytes => t.2) <$> external_calls))
    as [calls_data|e1] eqn:Hc.
  2:{ apply encode_external_calls_raises in Hc as [x ->].
      intros _. right. by exists addresses. }
  cbn [rewrap_encoding_error mbind result_bind].
  destruct (mapM _addressify incoming_assets)
    as [incoming|e2]; [|intros [= ->]; by left].
  cbn [mbind result_bind].
  destruct (mapM _addressify spend_assets)
    as [spend|e3]; [done|intros [= ->]; by left].
Qed.

(** C1.  A raw address string among the asset references (call target,
    incoming asset or spend asset) stops
    [encode_generic_adapter_execute_calls_args]: the call raises and no
    byte string is returned, so there is nothing to decode.  The error is
    the [AssertionError] of [_addressify] naming an asset reference that
    is not a contract proxy, or the [EncodingError] of the external
    calls when these failed to encode first. *)
Theorem raw_address_asset_refused
    (incoming_assets : list PyVal) (min_incoming_asset_amounts : list Z)
    (spend_assets : list PyVal) (spend_asset_amounts : list Z)
    (external_calls : list (PyVal * bytes)) (a : address_bytes) :
  PAddress a ∈ (fst <$> external_calls) ++ incoming_assets ++ spend_assets →
  ∃ e,
    encode_generic_adapter_execute_calls_args
      incoming_assets min_incoming_asset_amounts
      spend_assets spend_asset_amounts external_calls = Raise e
    ∧ ((∃ b, b ∈ (fst <$> external_calls) ++ incoming_assets ++ spend_assets
             ∧ isinstance b ClsContract = false
             ∧ e = AssertionError (GotBadAsset b))
       ∨ (∃ addresses,
             _addressify_collection (fst <$> external_calls) = Ok addresses
             ∧ e = EncodingError
                     (CouldNotEncode addresses (snd <$> external_calls)))).
Proof.
  intros Ha.
  exact (not_a_proxy_raises incoming_assets min_incoming_asset_amounts
           spend_assets spend_asset_amounts external_calls (PAddress a)
           Ha eq_refl).
Qed.

(** C1, witness: the swap of the end-to-end example with the incoming
    asset given as the address string of WETH instead of its proxy.
    The proxy is encoded, and the encoding decodes to the address; the
    address string is refused by the assertion of [_addressify]. *)
Lemma raw_address_asset_refused_witness :
  PAddress (address Examples.WETH)
    ∈ (fst <$> [(PContract Examples.ROUTER, Examples.swap_calldata)])
        ++ [PAddress (address Examples.WETH)] ++ [PContract Examples.USDC]
  ∧ encode_generic_adapter_execute_calls_args
      [PContract Examples.WETH] [1] [PContract Examples.USDC] [500000000]
      [(PContract Examples.ROUTER, Examples.swap_calldata)]
    = Ok Examples.execute_calls_encoded
  ∧ (fst <$> Abi.decode_execute_calls Examples.execute_calls_encoded)
    = Some ([address Examples.WETH], [1], [address Examples.USDC], [500000000])
  ∧ encode_generic_adapter_execute_calls_args
      [PAddress (address Examples.WETH)] [1]
      [PContract Examples.USDC] [500000000]
      [(PContract Examples.ROUTER, Examples.swap_calldata)]
    = Raise (AssertionError (GotBadAsset (PAddress (address Examples.WETH))))
  ∧ ∃ e,
    encode_generic_adapter_execute_calls_args
      [PAddress (address Examples.WETH)] [1]
      [PContract Examples.USDC] [500000000]
      [(PContract Examples.ROUTER, Examples.swap_calldata)] = Raise e
    ∧ ((∃ b, b ∈ (fst <$> [(PContract Examples.ROUTER, Examples.swap_calldata)])
                   ++ [PAddress (address Examples.WETH)]
                   ++ [PContract Examples.USDC]
             ∧ isinstance b ClsContract = false
             ∧ e = AssertionError (GotBadAsset b))
       ∨ (∃ addresses,
             _addressify_collection
               (fst <$> [(PContract Examples.ROUTER, Examples.swap_calldata)])
             = Ok addresses
             ∧ e = EncodingError
                     (CouldNotEncode addresses
                        (snd <$> [(PContract Examples.ROUTER,
                                   Examples.swap_calldata)])))).
Proof.
  assert (PAddress (address Examples.WETH)
    ∈ (fst <$> [(PContract Examples.ROUTER, Examples.swap_calldata)])
        ++ [PAddress (address Examples.WETH)] ++ [PContract Examples.USDC])
    as Hin by (cbn; set_solver).
  split; [exact Hin|].
  split; [vm_compute; reflexivity|].
  split; [vm_compute; reflexivity|].
  split; [vm_compute; reflexivity|].
  exact (raw_address_asset_refused _ [1] _ [500000000] _ _ Hin).
Defined.

(** C2, as amended.  Take a call in which an asset reference (call
    target, incoming asset, spend asset) has no valid shape: it is
    neither a contract proxy nor an address string.  The call raises and
    returns nothing.  When every asset reference before that value, in
    the order call targets, incoming assets, spend assets, is a contract
    proxy, the error is the [AssertionError] that names that value, or,
    when the call targets are all proxies and the external calls could
    not be encoded before the asset lists were looked at, the
    [EncodingError] that names the addresses and the call data.  Lengths
    of paired lists are not compared. *)
Theorem non_asset_raises
    (incoming_assets : list PyVal) (min_incoming_asset_amounts : list Z)
    (spend_assets : list PyVal) (spend_asset_amounts : list Z)
    (external_calls : list (PyVal * bytes)) (a : PyVal) :
  a ∈ (fst <$> external_calls) ++ incoming_assets ++ spend_assets →
  is_asset_reference a = false →
  is_raise (encode_generic_adapter_execute_calls_args
              incoming_assets min_incoming_asset_amounts
              spend_assets spend_asset_amounts external_calls) = true
  ∧ ∀ (proxies : list Contract) (rest : list PyVal),
      (fst <$> external_calls) ++ incoming_assets ++ spend_assets
      = (PContract <$> proxies) ++ a :: rest →
      encode_generic_adapter_execute_calls_args
        incoming_assets min_incoming_asset_amounts
        spend_assets spend_asset_amounts external_calls
      = Raise (AssertionError (GotBadAsset a))
      ∨ ∃ addresses,
          _addressify_collection (fst <$> external_calls) = Ok addresses
          ∧ encode_generic_adapter_execute_calls_args
              incoming_assets min_incoming_asset_amounts
              spend_assets spend_asset_amounts external_calls
            = Raise (EncodingError
                       (CouldNotEncode addresses (snd <$> external_calls))).
Proof.
  intros Ha Hbad.
  assert (isinstance a ClsContract = false) as Hnc by (by destruct a).
  split.
  - destruct (not_a_proxy_raises incoming_assets min_incoming_asset_amounts
                spend_assets spend_asset_amounts external_calls a Ha Hnc)
      as (e & -> & _).
    reflexivity.
  - intros proxies rest Hrefs.
    apply execute_calls_args_raise_order. rewrite Hrefs.
    apply (mapM_first_Raise _addressify _ _ _ _ _
             (addressify_collection_resolves proxies)
             (addressify_not_contract a Hnc)).
Qed.

(** C2, witness: the incoming asset is the string ["weth"]; the call
    target before it is a proxy, and the error names the string. *)
Lemma non_asset_raises_witness :
  PStr "weth"
    ∈ (fst <$> [(PContract Examples.ROUTER, Examples.swap_calldata)])
        ++ [PStr "weth"] ++ [PContract Examples.USDC]
  ∧ is_asset_reference (PStr "weth") = false
  ∧ (fst <$> [(PContract Examples.ROUTER, Examples.swap_calldata)])
      ++ [PStr "weth"] ++ [PContract Examples.USDC]
    = (PContract <$> [Examples.ROUTER])
        ++ PStr "weth" :: [PContract Examples.USDC]
  ∧ encode_generic_adapter_execute_calls_args
      [PStr "weth"] [1] [PContract Examples.USDC] [500000000]
      [(PContract Examples.ROUTER, Examples.swap_calldata)]
    = Raise (AssertionError (GotBadAsset (PStr "weth")))
  ∧ is_raise (encode_generic_adapter_execute_calls_args
                [PStr "weth"] [1] [PContract Examples.USDC] [500000000]
                [(PContract Examples.ROUTER, Examples.swap_calldata)]) = true
  ∧ ∀ (proxies : list Contract) (rest : list PyVal),
      (fst <$> [(PContract Examples.ROUTER, Examples.swap_calldata)])
        ++ [PStr "weth"] ++ [PContract Examples.USDC]
      = (PContract <$> proxies) ++ PStr "weth" :: rest →
      encode_generic_adapter_execute_calls_args
        [PStr "weth"] [1] [PContract Examples.USDC] [500000000]
        [(PContract Examples.ROUTER, Examples.swap_calldata)]
      = Raise (AssertionError (GotBadAsset (PStr "weth")))
      ∨ ∃ addresses,
          _addressify_collection
            (fst <$> [(PContract Examples.ROUTER, Examples.swap_calldata)])
          = Ok addresses
          ∧ encode_generic_adapter_execute_calls_args
              [PStr "weth"] [1] [PContract Examples.USDC] [500000000]
              [(PContract Examples.ROUTER, Examples.swap_calldata)]
            = Raise (EncodingError
                       (CouldNotEncode addresses
                          (snd <$> [(PContract Examples.ROUTER,
                                     Examples.swap_calldata)]))).
Proof.
  assert (PStr "weth"
    ∈ (fst <$> [(PContract Examples.ROUTER, Examples.swap_calldata)])
        ++ [PStr "weth"] ++ [PContract Examples.USDC])
    as Hin by (cbn; set_solver).
  split; [exact Hin|]. split; [reflexivity|]. split; [reflexivity|].
  split; [vm_compute; reflexivity|].
  exact (non_asset_raises _ [1] _ [500000000] _ _ Hin eq_refl).
Defined.

(** X20, witness: the swap of the end-to-end example. *)
Lemma execute_calls_args_roundtrip_witness :
  encode_generic_adapter_execute_calls_args
    [PContract Examples.WETH] [1] [PContract Examples.USDC] [500000000]
    [(PContract Examples.ROUTER, Examples.swap_calldata)]
  = Ok Examples.execute_calls_encoded
  ∧ ∃ (incoming spend targets : list address_bytes) (calls_data : bytes),
    _addressify_collection [PContract Examples.WETH] = Ok (PAddress <$> incoming)
    ∧ _addressify_collection [PContract Examples.USDC] = Ok (PAddress <$> spend)
    ∧ _addressify_collection
        (fst <$> [(PContract Examples.ROUTER, Examples.swap_calldata)])
      = Ok (PAddress <$> targets)
    ∧ Abi.decode_execute_calls Examples.execute_calls_encoded
      = Some (incoming, [1], spend, [500000000], calls_data)
    ∧ Abi.decode_external_calls calls_data
      = Some (targets,
              snd <$> [(PContract Examples.ROUTER, Examples.swap_calldata)]).
Proof.
  assert (encode_generic_adapter_execute_calls_args
    [PContract Examples.WETH] [1] [PContract Examples.USDC] [500000000]
    [(PContract Examples.ROUTER, Examples.swap_calldata)]
    = Ok Examples.execute_calls_encoded) as Henc by (vm_compute; reflexivity).
  split; [exact Henc|].
  exact (execute_calls_args_roundtrip _ _ _ _ _ _ Henc).
Defined.
End GenericAdapterClaims.


(** ** The vault controlled wallet *)

Section WalletClaims.
Import Wallet.

Lemma allocate_nonces_from (n : nat) (self : VaultControlledWallet) :
  (allocate_nonces n self).1
    = seqZ (current_nonce (hot_wallet self)) (Z.of_nat n)
  ∧ current_nonce (hot_wallet (allocate_nonces n self).2)
    = current_nonce (hot_wallet self) + Z.of_nat n.
Proof.
  revert self. induction n as [|n IH]; intros self.
  - cbn. split; [done | lia].
  - cbn [allocate_nonces]. unfold allocate_nonce.
    cbn [HotWallet_allocate_nonce].
    set (self1 := {| vault := vault self; hot_wallet := _ |}).
    destruct (IH self1) as [IH1 IH2].
    destruct (allocate_nonces n self1) as [rest self2]. cbn [fst snd] in *.
    rewrite seqZ_cons by lia. rewrite IH1, IH2. subst self1. cbn.
    split; [|lia]. do 2 f_equal; lia.
Qed.

(** C3.  After [sync_nonce] has read the on-chain count [k], [N] calls
    of [allocate_nonce] return [k], [k+1], ..., [k+N-1] in this order,
    and no value is returned twice. *)
Theorem allocate_nonce_sequence (web3 : Web3) (self : VaultControlledWallet)
    (N : nat) :
  let k := get_transaction_count web3
             (account_address (account (hot_wallet self))) in
  let nonces := (allocate_nonces N (sync_nonce web3 self)).1 in
  nonces = seqZ k (Z.of_nat N)
  ∧ (∀ i, (i < N)%nat → nonces !! i = Some (k + Z.of_nat i))
  ∧ NoDup nonces.
Proof.
  intros k nonces.
  assert (nonces = seqZ k (Z.of_nat N)) as ->
    by apply (allocate_nonces_from N (sync_nonce web3 self)).
  split; [done|]. split; [|apply NoDup_seqZ].
  intros i Hi. apply lookup_seqZ. lia.
Qed.

Section SigningClaims.
Variable sign_transaction : LocalAccount → tx_dict → SignedTransaction.

(** C4.  A request that already has a ["nonce"] key is rejected by
    [sign_transaction_with_new_nonce], and the wallet (its nonce counter
    included) and the request are what they were before the call. *)
Theorem sign_rejects_request_with_nonce
    (self : VaultControlledWallet) (tx : tx_dict) :
  is_Some (tx !! "nonce") →
  sign_transaction_with_new_nonce sign_transaction self tx
  = (Raise (AssertionError NoMessage), self, tx).
Proof.
  intros Hn. unfold sign_transaction_with_new_nonce.
  by rewrite bool_decide_eq_true_2.
Qed.

(** C5.  What [sign_transaction_with_new_nonce] does with a request
    without a nonce: after the nonce is stored, [self.account] is read,
    an attribute [__init__] never binds, and the call raises
    [AttributeError] instead of returning a signed transaction. *)
Theorem sign_raises_attribute_error
    (self : VaultControlledWallet) (tx : tx_dict) :
  tx !! "nonce" = None →
  (sign_transaction_with_new_nonce sign_transaction self tx).1.1
  = Raise (AttributeError "account").
Proof.
  intros Hn. unfold sign_transaction_with_new_nonce.
  rewrite bool_decide_eq_false_2 by (rewrite Hn; by intros [? ?]).
  reflexivity.
Qed.

(** C8, as amended.  [sign_transaction_with_new_nonce] leaves a request
    that already has a nonce as it is, and updates a request without
    one in place: afterwards the dict is the original with ["nonce"]
    bound to the nonce the wallet allocated, every other key
    unchanged. *)
Theorem sign_updates_request_in_place
    (self : VaultControlledWallet) (tx : tx_dict) :
  (is_Some (tx !! "nonce") →
   (sign_transaction_with_new_nonce sign_transaction self tx).2 = tx)
  ∧ (tx !! "nonce" = None →
     (sign_transaction_with_new_nonce sign_transaction self tx).2
     = <["nonce" := PInt (allocate_nonce self).1]> tx).
Proof.
  unfold sign_transaction_with_new_nonce. split; intros Hn.
  - by rewrite bool_decide_eq_true_2.
  - rewrite bool_decide_eq_false_2 by (rewrite Hn; by intros [? ?]).
    reflexivity.
Qed.
End SigningClaims.

(** C4, witness: a request that carries nonce 3. *)
Lemma sign_rejects_request_with_nonce_witness :
  is_Some (WalletExamples.request_with_nonce !! "nonce")
  ∧ sign_transaction_with_new_nonce WalletExamples.zero_signature
      (sync_nonce WalletExamples.chain WalletExamples.fresh_wallet)
      WalletExamples.request_with_nonce
    = (Raise (AssertionError NoMessage),
       sync_nonce WalletExamples.chain WalletExamples.fresh_wallet,
       WalletExamples.request_with_nonce).
Proof.
  assert (is_Some (WalletExamples.request_with_nonce !! "nonce")) as Hn
    by (exists (PInt 3); apply lookup_insert_eq).
  split; [exact Hn|].
  exact (sign_rejects_request_with_nonce _ _ _ Hn).
Defined.

Lemma request_has_no_nonce : WalletExamples.request !! "nonce" = None.
Proof. by apply lookup_singleton_ne. Qed.

(** C5, witness: a request with a gas limit only, wallet synced to 7. *)
Lemma sign_raises_attribute_error_witness :
  WalletExamples.request !! "nonce" = None
  ∧ (sign_transaction_with_new_nonce WalletExamples.zero_signature
       (sync_nonce WalletExamples.chain WalletExamples.fresh_wallet)
       WalletExamples.request).1.1
    = Raise (AttributeError "account").
Proof.
  split; [exact request_has_no_nonce|].
  exact (sign_raises_attribute_error _ _ _ request_has_no_nonce).
Defined.

(** C8, counterexample.  A request without a nonce has one after the
    call. *)
Lemma sign_changes_request :
  WalletExamples.request !! "nonce" = None
  ∧ (sign_transaction_with_new_nonce WalletExamples.zero_signature
       (sync_nonce WalletExamples.chain WalletExamples.fresh_wallet)
       WalletExamples.request).2 !! "nonce"
    = Some (PInt 7).
Proof.
  split; [exact request_has_no_nonce|].
  unfold sign_transaction_with_new_nonce.
  rewrite bool_decide_eq_false_2
    by (rewrite request_has_no_nonce; by intros [? ?]).
  apply lookup_insert_eq.
Qed.

(** C8, witness: one request with a nonce, one without. *)
Lemma sign_updates_request_in_place_witness :
  (sign_transaction_with_new_nonce WalletExamples.zero_signature
     (sync_nonce WalletExamples.chain WalletExamples.fresh_wallet)
     WalletExamples.request_with_nonce).2
  = WalletExamples.request_with_nonce
  ∧ (sign_transaction_with_new_nonce WalletExamples.zero_signature
       (sync_nonce WalletExamples.chain WalletExamples.fresh_wallet)
       WalletExamples.request).2
    = <["nonce" := PInt 7]> WalletExamples.request.
Proof.
  split.
  - apply (proj1 (sign_updates_request_in_place _ _ _)).
    exists (PInt 3). apply lookup_insert_eq.
  - apply (proj2 (sign_updates_request_in_place
                    WalletExamples.zero_signature
                    (sync_nonce WalletExamples.chain WalletExamples.fresh_wallet)
                    WalletExamples.request)).
    exact request_has_no_nonce.
Defined.
End WalletClaims.


(** ** The connection factory *)

Section FactoryClaims.
Import Web3Factory.

Lemma call_hit (f : TunedWeb3Factory) (t : thread) (w : World) (h : Web3) :
  thread_local_cache f = true →
  _web3_thread_local_cache w !! t = Some h →
  __call__ f t w = (h, w).
Proof. intros Hc Hh. unfold __call__. by rewrite Hc, Hh. Qed.

Lemma call_miss (f : TunedWeb3Factory) (t : thread) (w : World) :
  thread_local_cache f = true →
  _web3_thread_local_cache w !! t = None →
  __call__ f t w
  = (new_web3 f w,
     {| _web3_thread_local_cache :=
          <[t := new_web3 f w]> (_web3_thread_local_cache w);
        next_obj := S (next_obj w) |}).
Proof. intros Hc Hh. unfold __call__. by rewrite Hc, Hh. Qed.

Lemma call_uncached (f : TunedWeb3Factory) (t : thread) (w : World) :
  thread_local_cache f = false →
  __call__ f t w
  = (new_web3 f w,
     {| _web3_thread_local_cache := _web3_thread_local_cache w;
        next_obj := S (next_obj w) |}).
Proof. intros Hc. unfold __call__. by rewrite Hc. Qed.

Lemma call_stores (f : TunedWeb3Factory) (t : thread) (w : World) :
  thread_local_cache f = true →
  _web3_thread_local_cache (__call__ f t w).2 !! t = Some (__call__ f t w).1.
Proof.
  intros Hc. destruct (_web3_thread_local_cache w !! t) as [h|] eqn:Hh.
  - by rewrite (call_hit f t w h).
  - rewrite call_miss by done. apply lookup_insert_eq.
Qed.

Lemma call_keeps_slot (f : TunedWeb3Factory) (t t' : thread) (w : World) (h : Web3) :
  _web3_thread_local_cache w !! t = Some h →
  _web3_thread_local_cache (__call__ f t' w).2 !! t = Some h.
Proof.
  intros Hh. destruct (thread_local_cache f) eqn:Hc.
  - destruct (_web3_thread_local_cache w !! t') as [h'|] eqn:Hh'.
    + by rewrite (call_hit f t' w h').
    + rewrite call_miss by done. cbn.
      rewrite lookup_insert_ne; [done|]. intros ->. congruence.
  - by rewrite call_uncached.
Qed.

Lemma run_keeps_slot (calls : list (TunedWeb3Factory * thread)) (t : thread)
    (w : World) (h : Web3) :
  _web3_thread_local_cache w !! t = Some h →
  _web3_thread_local_cache (run calls w) !! t = Some h.
Proof.
  revert w. induction calls as [|[f t'] calls IH]; intros w Hh; [done|].
  cbn [run]. by apply IH, call_keeps_slot.
Qed.

Lemma call_cache_ok (f : TunedWeb3Factory) (t : thread) (w : World) :
  cache_ok w → cache_ok (__call__ f t w).2.
Proof.
  intros [Hold Hinj]. destruct (thread_local_cache f) eqn:Hc.
  - destruct (_web3_thread_local_cache w !! t) as [h|] eqn:Hh.
    + by rewrite (call_hit f t w h).
    + rewrite call_miss by done. split; cbn.
      * intros t1 h1. rewrite lookup_insert.
        case_decide; [intros [= <-]; cbn; lia|].
        intros H1%Hold. lia.
      * intros t1 t2 h1 h2. rewrite !lookup_insert.
        repeat case_decide; subst; try done.
        -- intros [= <-] H2%Hold. cbn. lia.
        -- intros H1%Hold [= <-]. cbn. lia.
        -- apply Hinj.
  - rewrite call_uncached by done. split; cbn.
    + intros t1 h1 H1%Hold. lia.
    + apply Hinj.
Qed.

Lemma run_cache_ok (calls : list (TunedWeb3Factory * thread)) (w : World) :
  cache_ok w → cache_ok (run calls w).
Proof.
  revert w. induction calls as [|[f t] calls IH]; intros w Hw; [done|].
  cbn [run]. by apply IH, call_cache_ok.
Qed.

Lemma initial_cache_ok : cache_ok initial_world.
Proof. split; cbn; intros *; by rewrite lookup_empty. Qed.

(** C9.  With [thread_local_cache] enabled, after any history of factory
    invocations: the first invocation on a thread stores the connection
    it returns in that thread's slot; any later invocation on the same
    thread, whatever happened on other threads in between, returns the
    same connection and changes nothing; and an invocation on another
    thread returns a different connection object. *)
Theorem thread_local_cache_per_thread
    (f : TunedWeb3Factory)
    (history later : list (TunedWeb3Factory * thread)) (a : thread) :
  thread_local_cache f = true →
  let w0 := run history initial_world in
  let first := __call__ f a w0 in
  let w1 := run later first.2 in
  _web3_thread_local_cache first.2 !! a = Some first.1
  ∧ __call__ f a w1 = (first.1, w1)
  ∧ (∀ b : thread, b ≠ a → obj_id (__call__ f b w1).1 ≠ obj_id first.1).
Proof.
  intros Hc w0 first w1.
  pose proof (call_stores f a w0 Hc) as Hstored. fold first in Hstored.
  pose proof (run_keeps_slot later a _ _ Hstored) as Hkept. fold w1 in Hkept.
  split; [done|]. split; [by apply call_hit|].
  intros b Hab.
  assert (cache_ok w1) as [Hold Hinj].
  { apply run_cache_ok, call_cache_ok, run_cache_ok, initial_cache_ok. }
  destruct (_web3_thread_local_cache w1 !! b) as [hb|] eqn:Hb.
  - rewrite (call_hit f b w1 hb) by done. cbn.
    intros Heq. apply Hab. by eapply Hinj.
  - rewrite call_miss by done. cbn.
    apply Hold in Hkept. lia.
Qed.

(** C9, witness: a factory for one endpoint used on threads A and B
    while another caching factory runs on thread C. *)
Lemma thread_local_cache_per_thread_witness :
  thread_local_cache FactoryExamples.mainnet = true
  ∧ let w0 := run [(FactoryExamples.polygon, FactoryExamples.thread_C)]
                  initial_world in
    let first := __call__ FactoryExamples.mainnet FactoryExamples.thread_A w0 in
    let w1 := run [(FactoryExamples.mainnet, FactoryExamples.thread_B);
                   (FactoryExamples.polygon, FactoryExamples.thread_C)]
                  first.2 in
    _web3_thread_local_cache first.2 !! FactoryExamples.thread_A = Some first.1
    ∧ __call__ FactoryExamples.mainnet FactoryExamples.thread_A w1 = (first.1, w1)
    ∧ obj_id (__call__ FactoryExamples.mainnet FactoryExamples.thread_B w1).1
      ≠ obj_id first.1.
Proof.
  split; [reflexivity|].
  destruct (thread_local_cache_per_thread FactoryExamples.mainnet
              [(FactoryExamples.polygon, FactoryExamples.thread_C)]
              [(FactoryExamples.mainnet, FactoryExamples.thread_B);
               (FactoryExamples.polygon, FactoryExamples.thread_C)]
              FactoryExamples.thread_A eq_refl) as (Hstored & Hsame & Hother).
  split; [exact Hstored|]. split; [exact Hsame|].
  apply Hother. discriminate.
Defined.

(** C10.  The cache is keyed by thread only: once a caching factory has
    been invoked on a thread, a second caching factory invoked on that
    thread returns the first one's connection and creates nothing; when
    the first factory built that connection, its endpoint is the first
    factory's URL, whatever URL the second factory has. *)
Theorem cache_shared_between_factories
    (f1 f2 : TunedWeb3Factory) (t : thread) (w : World) :
  thread_local_cache f1 = true →
  thread_local_cache f2 = true →
  let first := __call__ f1 t w in
  __call__ f2 t first.2 = (first.1, first.2)
  ∧ (_web3_thread_local_cache w !! t = None →
     endpoint (__call__ f2 t first.2).1 = json_rpc_url f1).
Proof.
  intros H1 H2 first.
  assert (__call__ f2 t first.2 = (first.1, first.2)) as Hsame
    by (apply call_hit; [done | by apply call_stores]).
  split; [done|]. intros Hnone. rewrite Hsame. subst first.
  by rewrite call_miss.
Qed.

(** C10, witness: two caching factories for different endpoints on one
    thread. *)
Lemma cache_shared_between_factories_witness :
  thread_local_cache FactoryExamples.mainnet = true
  ∧ thread_local_cache FactoryExamples.polygon = true
  ∧ let first := __call__ FactoryExamples.mainnet FactoryExamples.thread_A initial_world in
    __call__ FactoryExamples.polygon FactoryExamples.thread_A first.2 = (first.1, first.2)
    ∧ endpoint (__call__ FactoryExamples.polygon FactoryExamples.thread_A first.2).1
      = "https://mainnet.example".
Proof.
  split; [reflexivity|]. split; [reflexivity|].
  intros first.
  destruct (cache_shared_between_factories
              FactoryExamples.mainnet FactoryExamples.polygon
              FactoryExamples.thread_A initial_world
              eq_refl eq_refl) as [Hsame Hurl].
  split; [exact Hsame|]. apply Hurl. apply lookup_empty.
Defined.
End FactoryClaims.

(** ** The call-on-integration envelope *)

Section Envelope.
Import Abi AbiEnvelope GenericAdapter.

Lemma encode_bytesN_inv n b w :
  encode_bytesN n b = Ok w →
  (length b ≤ n)%nat ∧ w = b ++ replicate (32 - length b) x00.
Proof.
  unfold encode_bytesN. case_bool_decide; [|discriminate].
  by intros [= <-].
Qed.

Lemma decode_encode_bytes4 b w rest :
  length b = 4%nat →
  encode_bytesN 4 b = Ok w →
  length w = 32%nat ∧ decode_bytesN 4 (w ++ rest) = Some b.
Proof.
  intros Hb [_ ->]%encode_bytesN_inv.
  assert (length (b ++ replicate (32 - length b) x00) = 32%nat) as Hl
    by (rewrite length_app, length_replicate; lia).
  split; [done|].
  unfold decode_bytesN. rewrite read_word_app by done.
  cbn [mbind option_bind].
  rewrite drop_app_length' by done.
  rewrite forallb_zero_replicate.
  by rewrite take_app_length' by done.
Qed.

Lemma encode_envelope_tuple c0 c1 c2 w :
  encode_tuple [(false, c0); (false, c1); (true, c2)] = Ok w →
  ∃ off,
    encode_uint_256 (Z.of_nat (length c0 + (length c1 + (32 + 0)) + 0)) = Ok off
    ∧ w = c0 ++ c1 ++ off ++ c2.
Proof.
  unfold encode_tuple. cbn [fmap list_fmap fst snd tail_offsets_from zip
    zip_with mapM sum_list sum_list_with head_chunk_length length].
  intros (heads & Hh & [= <-])%bind_Ok_inv.
  cbn [mbind mret result_bind result_ret] in Hh.
  rewrite !Nat.add_0_r in *.
  destruct (encode_uint_256 _) as [off|] eqn:Hoff; [|discriminate].
  injection Hh as <-. exists off. split; [done|].
  cbn [concat]. by rewrite !app_nil_r, <- !app_assoc.
Qed.

Lemma decode_encode_call_on_integration a sel args w :
  length sel = 4%nat →
  encode_call_on_integration a sel args = Ok w →
  decode_call_on_integration w = Some (to_canonical_address a, sel, args).
Proof.
  intros Hsel. unfold encode_call_on_integration.
  intros (c0 & H0 & H)%bind_Ok_inv.
  apply bind_Ok_inv in H as (c1 & H1 & H).
  apply bind_Ok_inv in H as (c2 & H2 & H).
  apply encode_envelope_tuple in H as (off & Hoff & ->).
  pose proof (length_encode_address _ _ H0) as Hl0.
  destruct (decode_encode_bytes4 sel c1 (off ++ c2) Hsel H1) as [Hl1 Hd1].
  pose proof (length_encode_uint_256 _ _ Hoff) as Hlo.
  rewrite Hl0, Hl1 in Hoff.
  unfold decode_call_on_integration.
  rewrite (decode_encode_address _ _ _ H0). cbn [mbind option_bind].
  rewrite drop_app_length' by done. rewrite Hd1. cbn [mbind option_bind].
  assert (drop 64 (c0 ++ c1 ++ off ++ c2) = off ++ c2) as Hhead.
  { rewrite drop_app_ge by lia. rewrite Hl0.
    by rewrite drop_app_length' by done. }
  assert (drop 96 (c0 ++ c1 ++ off ++ c2) = c2 ++ []) as Htail.
  { rewrite drop_app_ge by lia. rewrite Hl0.
    rewrite drop_app_ge by lia. rewrite Hl1.
    rewrite drop_app_length' by done. by rewrite app_nil_r. }
  unfold head_tail. rewrite Hhead.
  rewrite (decode_encode_uint_256 _ _ _ Hoff). cbn [mbind option_bind].
  rewrite bool_decide_eq_true_2 by (rewrite !length_app; lia).
  rewrite Nat2Z.id.
  change (32 + (32 + (32 + 0)) + 0)%nat with 96%nat.
  rewrite Htail. by rewrite (decode_encode_bytes _ _ _ H2).
Qed.

Lemma call_on_integration_args_inv
    (adapter selector encoded_call_args : PyVal) (out : bytes) :
  encode_call_on_integration_args adapter selector encoded_call_args = Ok out →
  ∃ c, adapter = PContract c
       ∧ length (bytes_content selector) = 4%nat
       ∧ encode_call_on_integration (PAddress (address c))
           (bytes_content selector) (bytes_content encoded_call_args)
         = Ok out.
Proof.
  unfold encode_call_on_integration_args. intros H.
  apply bind_Ok_inv in H as (? & _ & H).
  apply bind_Ok_inv in H as (? & _ & H).
  apply bind_Ok_inv in H as (? & Hsel%assert_Ok_inv & H).
  apply bind_Ok_inv in H as (? & _ & H).
  apply bind_Ok_inv in H as (a & (c & -> & ->)%addressify_Ok_inv & H).
  apply bool_decide_eq_true in Hsel. by exists c.
Qed.

(** X1.  Whatever [encode_call_on_integration_args] returns decodes, as
    [['address', 'bytes4', 'bytes']], to the adapter's address, the
    selector and the encoded call arguments it was given; the adapter
    was a contract proxy. *)
Theorem call_on_integration_args_roundtrip
    (adapter selector encoded_call_args : PyVal) (out : bytes) :
  encode_call_on_integration_args adapter selector encoded_call_args = Ok out →
  ∃ c, adapter = PContract c
       ∧ decode_call_on_integration out
         = Some (address c, bytes_content selector,
                 bytes_content encoded_call_args).
Proof.
  intros (c & -> & Hsel & Henc)%call_on_integration_args_inv.
  exists c. split; [done|].
  by apply (decode_encode_call_on_integration (PAddress (address c))).
Qed.

(** X1, witness: the envelope of the example. *)
Lemma call_on_integration_args_roundtrip_witness :
  encode_call_on_integration_args
    (PContract Examples.ROUTER) (PBytes Examples.selector) (PBytes [x01])
  = Ok Examples.call_on_integration_encoded
  ∧ ∃ c, PContract Examples.ROUTER = PContract c
         ∧ decode_call_on_integration Examples.call_on_integration_encoded
           = Some (address c, bytes_content (PBytes Examples.selector),
                   bytes_content (PBytes [x01])).
Proof.
  assert (encode_call_on_integration_args
            (PContract Examples.ROUTER) (PBytes Examples.selector)
            (PBytes [x01])
          = Ok Examples.call_on_integration_encoded) as Henc
    by (vm_compute; reflexivity).
  split; [exact Henc|].
  exact (call_on_integration_args_roundtrip _ _ _ _ Henc).
Defined.
End Envelope.

(** ** Inputs of the encoder, and the call that uses it *)

Section AdapterInputs.
Import Abi GenericAdapter.

Lemma encode_uint256_array_in_range vs w :
  encode_uint256_array vs = Ok w →
  Forall (fun z => 0 <= z <= UINT_256_MAX) vs.
Proof.
  intros (chunks & _ & _ & Hc & _)%encode_array_inv.
  induction Hc as [|v c vs chunks Hv _ IH]; constructor; [|done].
  by apply encode_uint_256_inv in Hv as [_ ?].
Qed.

Lemma encode_address_array_valid (cs : list Contract) w :
  encode_address_array ((PAddress ∘ address) <$> cs) = Ok w →
  Forall (fun c => length (address c) = 20%nat) cs.
Proof.
  intros (chunks & _ & _ & Hc & _)%encode_array_inv.
  apply Forall2_fmap_l in Hc.
  induction Hc as [|c ch cs chunks Hv _ IH]; constructor; [|done].
  by apply encode_address_inv in Hv as [? _].
Qed.

Lemma valid_proxies (cs : list Contract) :
  Forall (fun c => length (address c) = 20%nat) cs →
  Forall valid_proxy (PContract <$> cs).
Proof.
  intros H. apply Forall_fmap. eapply Forall_impl; [exact H|].
  intros c Hc. by exists c.
Qed.

(** X2.  [encode_generic_adapter_execute_calls_args] returns only when
    every amount is an unsigned 256-bit integer and every asset
    reference (call target, incoming asset, spend asset) is a contract
    proxy with a 20-byte address. *)
Theorem execute_calls_args_inputs_valid
    (incoming_assets : list PyVal) (min_incoming_asset_amounts : list Z)
    (spend_assets : list PyVal) (spend_asset_amounts : list Z)
    (external_calls : list (PyVal * bytes)) (out : bytes) :
  encode_generic_adapter_execute_calls_args
    incoming_assets min_incoming_asset_amounts
    spend_assets spend_asset_amounts external_calls = Ok out →
  Forall (fun z => 0 <= z <= UINT_256_MAX)
         (min_incoming_asset_amounts ++ spend_asset_amounts)
  ∧ Forall valid_proxy
           ((fst <$> external_calls) ++ incoming_assets ++ spend_assets).
Proof.
  unfold encode_generic_adapter_execute_calls_args.
  intros (addresses & Ht & H)%bind_Ok_inv.
  apply bind_Ok_inv in H as (calls_data & Hc%rewrap_Ok_inv & H).
  apply bind_Ok_inv in H as (incoming & Hi & H).
  apply bind_Ok_inv in H as (spend & Hs & H).
  rewrite (mapM_result_fmap fst _addressify) in Ht.
  apply addressify_collection_Ok_inv in Ht as (tcs & -> & ->).
  apply addressify_collection_Ok_inv in Hi as (ics & -> & ->).
  apply addressify_collection_Ok_inv in Hs as (scs & -> & ->).
  unfold encode_external_calls in Hc.
  apply bind_Ok_inv in Hc as (a & Ha & _).
  unfold encode_execute_calls in H.
  apply bind_Ok_inv in H as (c0 & H0 & H).
  apply bind_Ok_inv in H as (c1 & H1 & H).
  apply bind_Ok_inv in H as (c2 & H2 & H).
  apply bind_Ok_inv in H as (c3 & H3 & _).
  split.
  - apply Forall_app. split; by eapply encode_uint256_array_in_range.
  - rewrite !Forall_app. repeat split;
      by eapply valid_proxies, encode_address_array_valid.
Qed.

(** X2, witness: the swap of the end-to-end example. *)
Lemma execute_calls_args_inputs_valid_witness :
  encode_generic_adapter_execute_calls_args
    [PContract Examples.WETH] [1] [PContract Examples.USDC] [500000000]
    [(PContract Examples.ROUTER, Examples.swap_calldata)]
  = Ok Examples.execute_calls_encoded
  ∧ Forall (fun z => 0 <= z <= UINT_256_MAX) ([1] ++ [500000000])
  ∧ Forall valid_proxy
           ((fst <$> [(PContract Examples.ROUTER, Examples.swap_calldata)])
              ++ [PContract Examples.WETH] ++ [PContract Examples.USDC]).
Proof.
  assert (encode_generic_adapter_execute_calls_args
            [PContract Examples.WETH] [1] [PContract Examples.USDC] [500000000]
            [(PContract Examples.ROUTER, Examples.swap_calldata)]
          = Ok Examples.execute_calls_encoded) as Henc
    by (vm_compute; reflexivity).
  split; [exact Henc|].
  exact (execute_calls_args_inputs_valid _ _ _ _ _ _ Henc).
Defined.

(** X3.  [_addressify_collection] is all or nothing and keeps the order:
    a list of contract proxies gives their addresses in the same
    order, and a list with a value that is not a proxy raises the
    [AssertionError] that names the first such value, whatever follows
    it. *)
Theorem addressify_collection_all_or_first_offender :
  (∀ proxies : list Contract,
     _addressify_collection (PContract <$> proxies)
     = Ok ((PAddress ∘ address) <$> proxies))
  ∧ (∀ (proxies : list Contract) (bad : PyVal) (rest : list PyVal),
       isinstance bad ClsContract = false →
       _addressify_collection ((PContract <$> proxies) ++ bad :: rest)
       = Raise (AssertionError (GotBadAsset bad))).
Proof.
  split; [apply addressify_collection_resolves|].
  intros proxies bad rest Hbad. unfold _addressify_collection.
  induction proxies as [|c cs IH]; cbn [fmap list_fmap app mapM].
  - by rewrite (addressify_not_contract bad Hbad).
  - rewrite addressify_contract. cbn [mbind result_bind].
    cbn [fmap list_fmap] in IH. by rewrite IH.
Qed.
End AdapterInputs.

Section ExecuteCallsProps.
Import GenericAdapter ExecuteCalls.
Variable keccak : bytes → bytes.
Variable CallOnIntegration_value : Z.
Variable callOnExtension_build_transaction :
  Contract → PyVal → Z → bytes → result TxParams.

Abbreviation execute_calls :=
  (execute_calls_for_generic_adapter
     keccak CallOnIntegration_value callOnExtension_build_transaction).

(** X6.  [execute_calls_for_generic_adapter] refuses an empty list: when
    the external calls, the incoming assets, the minimum amounts, the
    spend amounts or the spend assets are empty it raises an
    [AssertionError], before anything is encoded or built. *)
Theorem execute_calls_rejects_empty_lists
    (comptroller generic_adapter integration_manager : PyVal)
    (external_calls : list (PyVal * bytes))
    (incoming_assets spend_assets : list PyVal)
    (min_incoming_asset_amounts spend_asset_amounts : list Z) :
  external_calls = [] ∨ incoming_assets = []
  ∨ min_incoming_asset_amounts = [] ∨ spend_asset_amounts = []
  ∨ spend_assets = [] →
  execute_calls comptroller external_calls generic_adapter integration_manager
                incoming_assets min_incoming_asset_amounts
                spend_assets spend_asset_amounts
  = Raise (AssertionError NoMessage).
Proof.
  intros Hempty. unfold execute_calls_for_generic_adapter.
  destruct (isinstance comptroller ClsContract); [|done].
  cbn [assert_ mbind result_bind].
  destruct external_calls; [done|].
  destruct (isinstance generic_adapter ClsContract); [|done].
  destruct incoming_assets; [done|].
  destruct (isinstance integration_manager ClsContract); [|done].
  destruct min_incoming_asset_amounts; [done|].
  destruct spend_asset_amounts; [done|].
  destruct spend_assets; [done|].
  by destruct Hempty as [?|[?|[?|[?|?]]]].
Qed.

(** X7.  When [execute_calls_for_generic_adapter] returns a transaction,
    the comptroller, the adapter and the integration manager are
    contract proxies, and the transaction is the one web3 built for
    [callOnExtension(integration_manager.address, CallOnIntegration,
    call_args)], where [call_args] decodes to the adapter's address,
    the first four bytes of the hash of the [executeCalls] signature
    and the output of [encode_generic_adapter_execute_calls_args]. *)
Theorem execute_calls_builds_call_on_extension
    (comptroller generic_adapter integration_manager : PyVal)
    (external_calls : list (PyVal * bytes))
    (incoming_assets spend_assets : list PyVal)
    (min_incoming_asset_amounts spend_asset_amounts : list Z)
    (tx : TxParams) :
  execute_calls comptroller external_calls generic_adapter integration_manager
                incoming_assets min_incoming_asset_amounts
                spend_assets spend_asset_amounts
  = Ok tx →
  ∃ (c ga im : Contract) (execute_call_args call_args : bytes),
    comptroller = PContract c
    ∧ generic_adapter = PContract ga
    ∧ integration_manager = PContract im
    ∧ encode_generic_adapter_execute_calls_args
        incoming_assets min_incoming_asset_amounts
        spend_assets spend_asset_amounts external_calls
      = Ok execute_call_args
    ∧ AbiEnvelope.decode_call_on_integration call_args
      = Some (address ga,
              take 4 (keccak (String.list_byte_of_string
                                "executeCalls(address,bytes,bytes)")),
              execute_call_args)
    ∧ callOnExtension_build_transaction
        c (PAddress (address im)) CallOnIntegration_value call_args
      = Ok tx.
Proof.
  unfold execute_calls_for_generic_adapter. intros H.
  apply bind_Ok_inv in H as (? & Hc%assert_Ok_inv & H).
  apply bind_Ok_inv in H as (? & _ & H).
  apply bind_Ok_inv in H as (? & _ & H).
  apply bind_Ok_inv in H as (? & _ & H).
  apply bind_Ok_inv in H as (? & Him%assert_Ok_inv & H).
  apply bind_Ok_inv in H as (? & _ & H).
  apply bind_Ok_inv in H as (? & _ & H).
  apply bind_Ok_inv in H as (? & _ & H).
  apply bind_Ok_inv in H as (execute_call_args & Hargs & H).
  apply bind_Ok_inv in H as (call_args & Hcall & H).
  apply isinstance_Contract in Hc as [c ->].
  apply isinstance_Contract in Him as [im ->].
  apply call_on_integration_args_inv in Hcall as (ga & -> & Hsel & Hcall).
  apply (decode_encode_call_on_integration _ _ _ _ Hsel) in Hcall.
  cbn [get_address mbind result_bind] in H.
  by exists c, ga, im, execute_call_args, call_args.
Qed.
End ExecuteCallsProps.

(** X6, witness: no external call. *)
Lemma execute_calls_rejects_empty_lists_witness :
  (([] : list (PyVal * bytes)) = [] ∨ [PContract Examples.WETH] = []
   ∨ [1] = [] ∨ [500000000] = [] ∨ [PContract Examples.USDC] = [])
  ∧ ExecuteCalls.execute_calls_for_generic_adapter
      ExecuteCallsExamples.keccak 0 ExecuteCallsExamples.build_transaction
      (PContract ExecuteCallsExamples.COMPTROLLER) []
      (PContract ExecuteCallsExamples.ADAPTER)
      (PContract ExecuteCallsExamples.MANAGER)
      [PContract Examples.WETH] [1] [PContract Examples.USDC] [500000000]
    = Raise (AssertionError NoMessage).
Proof.
  assert (([] : list (PyVal * bytes)) = [] ∨ [PContract Examples.WETH] = []
          ∨ [1] = [] ∨ [500000000] = [] ∨ [PContract Examples.USDC] = [])
    as Hempty by (by left).
  split; [exact Hempty|].
  exact (execute_calls_rejects_empty_lists
           ExecuteCallsExamples.keccak 0 ExecuteCallsExamples.build_transaction
           (PContract ExecuteCallsExamples.COMPTROLLER)
           (PContract ExecuteCallsExamples.ADAPTER)
           (PContract ExecuteCallsExamples.MANAGER)
           [] [PContract Examples.WETH] [PContract Examples.USDC]
           [1] [500000000] Hempty).
Defined.

Lemma example_execute_calls :
  ExecuteCalls.execute_calls_for_generic_adapter
    ExecuteCallsExamples.keccak 0 ExecuteCallsExamples.build_transaction
    (PContract ExecuteCallsExamples.COMPTROLLER)
    [(PContract Examples.ROUTER, Examples.swap_calldata)]
    (PContract ExecuteCallsExamples.ADAPTER)
    (PContract ExecuteCallsExamples.MANAGER)
    [PContract Examples.WETH] [1] [PContract Examples.USDC] [500000000]
  = Ok {[ "data" := PBytes ExecuteCallsExamples.call_args ]}.
Proof. vm_compute. reflexivity. Qed.

(** X7, witness: the example swap sent through an adapter. *)
Lemma execute_calls_builds_call_on_extension_witness :
  ExecuteCalls.execute_calls_for_generic_adapter
    ExecuteCallsExamples.keccak 0 ExecuteCallsExamples.build_transaction
    (PContract ExecuteCallsExamples.COMPTROLLER)
    [(PContract Examples.ROUTER, Examples.swap_calldata)]
    (PContract ExecuteCallsExamples.ADAPTER)
    (PContract ExecuteCallsExamples.MANAGER)
    [PContract Examples.WETH] [1] [PContract Examples.USDC] [500000000]
  = Ok {[ "data" := PBytes ExecuteCallsExamples.call_args ]}
  ∧ ∃ (c ga im : Contract) (execute_call_args call_args : bytes),
      PContract ExecuteCallsExamples.COMPTROLLER = PContract c
      ∧ PContract ExecuteCallsExamples.ADAPTER = PContract ga
      ∧ PContract ExecuteCallsExamples.MANAGER = PContract im
      ∧ GenericAdapter.encode_generic_adapter_execute_calls_args
          [PContract Examples.WETH] [1] [PContract Examples.USDC] [500000000]
          [(PContract Examples.ROUTER, Examples.swap_calldata)]
        = Ok execute_call_args
      ∧ AbiEnvelope.decode_call_on_integration call_args
        = Some (address ga,
                take 4 (ExecuteCallsExamples.keccak
                          (String.list_byte_of_string
                             "executeCalls(address,bytes,bytes)")),
                execute_call_args)
      ∧ ExecuteCallsExamples.build_transaction
          c (PAddress (address im)) 0 call_args
        = Ok {[ "data" := PBytes ExecuteCallsExamples.call_args ]}.
Proof.
  split; [exact example_execute_calls|].
  exact (execute_calls_builds_call_on_extension _ _ _ _ _ _ _ _ _ _ _ _
           example_execute_calls).
Defined.

(** ** The size of the encoded arguments *)

Section Sizes.
Import Abi GenericAdapter.

Lemma length_concat_sum (l : list bytes) :
  length (concat l) = sum_list (length <$> l).
Proof.
  induction l as [|x l IH]; [done|].
  cbn [concat fmap list_fmap sum_list sum_list_with].
  rewrite length_app. cbn [fmap] in IH. by rewrite IH.
Qed.

Lemma ceil32_aligned n : (32 | ceil32 n)%nat.
Proof.
  apply Nat.Lcm0.mod_divide. unfold ceil32.
  pose proof (Nat.div_mod_eq n 32) as Hn.
  pose proof (Nat.mod_upper_bound n 32 ltac:(lia)) as Hr.
  destruct (decide (n mod 32 = 0)%nat) as [Hz|Hz].
  - rewrite Hz. change ((32 - 0) mod 32)%nat with 0%nat.
    by rewrite Nat.add_0_r.
  - rewrite (Nat.mod_small (32 - n mod 32) 32) by lia.
    replace (n + (32 - n mod 32))%nat with ((n / 32 + 1) * 32)%nat by lia.
    apply Nat.Div0.mod_mul.
Qed.

Lemma ceil32_of_aligned n : (32 | n)%nat → ceil32 n = n.
Proof.
  intros H%Nat.Lcm0.mod_divide. unfold ceil32. rewrite H.
  change ((32 - 0) mod 32)%nat with 0%nat. lia.
Qed.

Lemma bytes_size_aligned b : (32 | bytes_size b)%nat.
Proof.
  unfold bytes_size. apply Nat.divide_add_r; [by exists 1%nat|].
  apply ceil32_aligned.
Qed.

Lemma word_array_size_aligned {A} (l : list A) : (32 | word_array_size l)%nat.
Proof. exists (1 + length l)%nat. unfold word_array_size. lia. Qed.

Lemma sum_bytes_sizes_aligned ds : (32 | sum_list (bytes_size <$> ds))%nat.
Proof.
  induction ds as [|d ds IH]; [by exists 0%nat|].
  cbn [fmap list_fmap sum_list sum_list_with].
  apply Nat.divide_add_r; [apply bytes_size_aligned | exact IH].
Qed.

Lemma bytes_array_size_aligned ds : (32 | bytes_array_size ds)%nat.
Proof.
  unfold bytes_array_size.
  apply Nat.divide_add_r; [|apply sum_bytes_sizes_aligned].
  exists (1 + length ds)%nat. lia.
Qed.

Lemma external_calls_size_aligned calls : (32 | external_calls_size calls)%nat.
Proof.
  unfold external_calls_size.
  apply Nat.divide_add_r; [|apply bytes_array_size_aligned].
  apply Nat.divide_add_r; [by exists 2%nat | apply word_array_size_aligned].
Qed.

Lemma execute_calls_args_size_aligned inc mins sp am calls :
  (32 | execute_calls_args_size inc mins sp am calls)%nat.
Proof.
  unfold execute_calls_args_size.
  apply Nat.divide_add_r;
    [|apply Nat.divide_add_r; [by exists 1%nat | apply ceil32_aligned]].
  do 3 (apply Nat.divide_add_r; [|apply word_array_size_aligned]).
  apply Nat.divide_add_r; [by exists 5%nat | apply word_array_size_aligned].
Qed.

Lemma length_encode_array_static {A} (enc : A → result bytes)
    (vs : list A) (w : bytes) :
  (∀ v c, enc v = Ok c → word_sized c) →
  encode_array false enc vs = Ok w →
  length w = word_array_size vs.
Proof.
  intros Hword (chunks & sz & el & Hc & Hsz & Hel & ->)%encode_array_inv.
  injection Hel as <-.
  assert (Forall word_sized chunks) as Hw.
  { eapply Forall2_Forall_r; [exact Hc|].
    apply Forall_forall. intros v _ c. apply Hword. }
  rewrite length_app, (length_encode_uint_256 _ _ Hsz),
    length_concat_words by done.
  by rewrite <- (Forall2_length _ _ _ Hc).
Qed.

Lemma length_encode_address_array vs w :
  encode_address_array vs = Ok w → length w = word_array_size vs.
Proof.
  apply length_encode_array_static. intros v c. apply length_encode_address.
Qed.

Lemma length_encode_uint256_array vs w :
  encode_uint256_array vs = Ok w → length w = word_array_size vs.
Proof.
  apply length_encode_array_static. intros v c. apply length_encode_uint_256.
Qed.

Lemma sum_chunk_lengths (ds chunks : list bytes) :
  Forall2 (fun d c => encode_bytes d = Ok c) ds chunks →
  sum_list (length <$> chunks) = sum_list (bytes_size <$> ds).
Proof.
  induction 1 as [|d c ds chunks Hd _ IH]; [done|].
  cbn [fmap list_fmap sum_list sum_list_with].
  cbn [fmap] in IH. rewrite IH.
  by rewrite (length_encode_bytes _ _ Hd).
Qed.

Lemma length_encode_bytes_array ds w :
  encode_bytes_array ds = Ok w → length w = bytes_array_size ds.
Proof.
  intros (chunks & sz & el & Hc & Hsz & Hel & ->)%encode_array_inv.
  rewrite encode_elements_dynamic in Hel.
  apply bind_Ok_inv in Hel as (heads & Hh & [= <-]).
  destruct (offset_heads_words _ _ Hh) as [Hw Hhl].
  rewrite !length_app, (length_encode_uint_256 _ _ Hsz),
    length_concat_words, length_concat_sum, (sum_chunk_lengths ds) by done.
  rewrite Hhl, <- (Forall2_length _ _ _ Hc). unfold bytes_array_size. lia.
Qed.

Lemma length_encode_tuple_dynamic tails w :
  encode_tuple (pair true <$> tails) = Ok w →
  length w = (32 * length tails + length (concat tails))%nat.
Proof.
  rewrite encode_tuple_dynamic.
  intros (heads & Hh & [= <-])%bind_Ok_inv.
  destruct (offset_heads_words _ _ Hh) as [Hw Hhl].
  by rewrite length_app, length_concat_words, Hhl by done.
Qed.

Lemma length_encode_external_calls addresses datas w :
  encode_external_calls addresses datas = Ok w →
  length w
  = (64 + word_array_size addresses + bytes_array_size datas)%nat.
Proof.
  unfold encode_external_calls.
  intros (a & Ha & H)%bind_Ok_inv.
  apply bind_Ok_inv in H as (d & Hd & H).
  change [(true, a); (true, d)] with (pair true <$> [a; d]) in H.
  apply length_encode_tuple_dynamic in H. rewrite H.
  cbn [concat]. rewrite !length_app. cbn [length].
  rewrite (length_encode_address_array _ _ Ha),
    (length_encode_bytes_array _ _ Hd). lia.
Qed.

Lemma length_encode_execute_calls inc mins sp am calls_data w :
  encode_execute_calls inc mins sp am calls_data = Ok w →
  length w
  = (160 + word_array_size inc + word_array_size mins + word_array_size sp
     + word_array_size am + bytes_size calls_data)%nat.
Proof.
  unfold encode_execute_calls.
  intros (c0 & H0 & H)%bind_Ok_inv.
  apply bind_Ok_inv in H as (c1 & H1 & H).
  apply bind_Ok_inv in H as (c2 & H2 & H).
  apply bind_Ok_inv in H as (c3 & H3 & H).
  apply bind_Ok_inv in H as (c4 & H4 & H).
  change [(true, c0); (true, c1); (true, c2); (true, c3); (true, c4)]
    with (pair true <$> [c0; c1; c2; c3; c4]) in H.
  apply length_encode_tuple_dynamic in H. rewrite H.
  cbn [concat]. rewrite !length_app. cbn [length].
  rewrite (length_encode_address_array _ _ H0),
    (length_encode_uint256_array _ _ H1),
    (length_encode_address_array _ _ H2),
    (length_encode_uint256_array _ _ H3),
    (length_encode_bytes _ _ H4).
  unfold bytes_size. lia.
Qed.

Lemma execute_calls_args_length_eq
    (incoming_assets : list PyVal) (min_incoming_asset_amounts : list Z)
    (spend_assets : list PyVal) (spend_asset_amounts : list Z)
    (external_calls : list (PyVal * bytes)) (out : bytes) :
  encode_generic_adapter_execute_calls_args
    incoming_assets min_incoming_asset_amounts
    spend_assets spend_asset_amounts external_calls = Ok out →
  length out
  = execute_calls_args_size incoming_assets min_incoming_asset_amounts
                            spend_assets spend_asset_amounts external_calls.
Proof.
  unfold encode_generic_adapter_execute_calls_args.
  intros (addresses & Ht & H)%bind_Ok_inv.
  apply bind_Ok_inv in H as (calls_data & Hc%rewrap_Ok_inv & H).
  apply bind_Ok_inv in H as (incoming & Hi & H).
  apply bind_Ok_inv in H as (spend & Hs & H).
  apply mapM_Ok_Forall2, Forall2_length in Ht, Hi, Hs.
  apply length_encode_external_calls in Hc.
  apply length_encode_execute_calls in H. rewrite H.
  unfold execute_calls_args_size, bytes_size, external_calls_size,
    word_array_size in *.
  rewrite Hc, <- Hi, <- Hs, <- Ht. reflexivity.
Qed.

(** X4.  The byte string [encode_generic_adapter_execute_calls_args]
    returns has the length the ABI layout gives it: five offset words,
    four word arrays and the padded inner byte string; the length is a
    multiple of 32. *)
Theorem execute_calls_args_length
    (incoming_assets : list PyVal) (min_incoming_asset_amounts : list Z)
    (spend_assets : list PyVal) (spend_asset_amounts : list Z)
    (external_calls : list (PyVal * bytes)) (out : bytes) :
  encode_generic_adapter_execute_calls_args
    incoming_assets min_incoming_asset_amounts
    spend_assets spend_asset_amounts external_calls = Ok out →
  length out
  = execute_calls_args_size incoming_assets min_incoming_asset_amounts
                            spend_assets spend_asset_amounts external_calls
  ∧ (length out mod 32 = 0)%nat.
Proof.
  intros Hlen%execute_calls_args_length_eq.
  split; [done|]. rewrite Hlen.
  apply Nat.Lcm0.mod_divide, execute_calls_args_size_aligned.
Qed.

(** X4, witness: the swap of the end-to-end example, 704 bytes. *)
Lemma execute_calls_args_length_witness :
  encode_generic_adapter_execute_calls_args
    [PContract Examples.WETH] [1] [PContract Examples.USDC] [500000000]
    [(PContract Examples.ROUTER, Examples.swap_calldata)]
  = Ok Examples.execute_calls_encoded
  ∧ length Examples.execute_calls_encoded
    = execute_calls_args_size
        [PContract Examples.WETH] [1] [PContract Examples.USDC] [500000000]
        [(PContract Examples.ROUTER, Examples.swap_calldata)]
  ∧ (length Examples.execute_calls_encoded mod 32 = 0)%nat.
Proof.
  assert (encode_generic_adapter_execute_calls_args
            [PContract Examples.WETH] [1] [PContract Examples.USDC] [500000000]
            [(PContract Examples.ROUTER, Examples.swap_calldata)]
          = Ok Examples.execute_calls_encoded) as Henc
    by (vm_compute; reflexivity).
  split; [exact Henc|].
  exact (execute_calls_args_length _ _ _ _ _ _ Henc).
Defined.
End Sizes.

(** ** The encoder returns on well-formed input *)

Section Totality.
Import Abi GenericAdapter.

Lemma encode_uint_256_Ok z :
  0 <= z <= UINT_256_MAX → encode_uint_256 z = Ok (int_to_big_endian 32 z).
Proof. intros Hz. unfold encode_uint_256. by rewrite bool_decide_eq_true_2. Qed.

Lemma mapM_Ok_exists {A B} (f : A → result B) (l : list A) :
  Forall (fun x => ∃ y, f x = Ok y) l → ∃ k, mapM f l = Ok k.
Proof.
  induction 1 as [|x l [y Hy] _ [k Hk]]; [by exists []|].
  exists (y :: k). cbn [mapM]. by rewrite Hy, Hk.
Qed.

Lemma encode_array_static_Ok {A} (enc : A → result bytes) (vs : list A) :
  Forall (fun v => ∃ c, enc v = Ok c) vs →
  Z.of_nat (length vs) <= UINT_256_MAX →
  ∃ w, encode_array false enc vs = Ok w.
Proof.
  intros [chunks Hc]%mapM_Ok_exists Hn. unfold encode_array.
  rewrite Hc. cbn [mbind result_bind].
  rewrite encode_uint_256_Ok by lia. cbn [mbind result_bind].
  by eexists.
Qed.

Lemma tail_offsets_bounded acc (tails : list bytes) :
  Forall (fun off => (off ≤ acc + length (concat tails))%nat)
         (tail_offsets_from acc tails).
Proof.
  revert acc. induction tails as [|t ts IH]; intros acc; [constructor|].
  cbn [tail_offsets_from concat]. rewrite length_app. constructor; [lia|].
  eapply Forall_impl; [apply IH|]. cbn. intros off Hoff. lia.
Qed.

Lemma offset_heads_Ok (tails : list bytes) :
  Z.of_nat (32 * length tails + length (concat tails)) <= UINT_256_MAX →
  ∃ heads, offset_heads tails = Ok heads.
Proof.
  intros Hb. apply mapM_Ok_exists.
  eapply Forall_impl; [apply (tail_offsets_bounded 0)|].
  cbn. intros off Hoff. eexists. apply encode_uint_256_Ok. lia.
Qed.

Lemma encode_tuple_dynamic_Ok (tails : list bytes) :
  Z.of_nat (32 * length tails + length (concat tails)) <= UINT_256_MAX →
  ∃ w, encode_tuple (pair true <$> tails) = Ok w.
Proof.
  intros [heads Hh]%offset_heads_Ok.
  rewrite encode_tuple_dynamic, Hh. by eexists.
Qed.

Lemma encode_bytes_Ok (b : bytes) :
  Z.of_nat (length b) <= UINT_256_MAX → ∃ w, encode_bytes b = Ok w.
Proof.
  intros Hb. unfold encode_bytes. rewrite encode_uint_256_Ok by lia.
  by eexists.
Qed.

Lemma bytes_size_ge b : (length b ≤ bytes_size b)%nat.
Proof. unfold bytes_size. pose proof (ceil32_ge (length b)). lia. Qed.

Lemma encode_each_bytes_Ok (ds : list bytes) :
  Z.of_nat (sum_list (bytes_size <$> ds)) <= UINT_256_MAX →
  Forall (fun d => ∃ c, encode_bytes d = Ok c) ds.
Proof.
  induction ds as [|d ds IH]; [constructor|].
  cbn [fmap list_fmap sum_list sum_list_with id]. intros Hb.
  pose proof (bytes_size_ge d).
  constructor; [apply encode_bytes_Ok; lia | apply IH; cbn [fmap]; lia].
Qed.

Lemma encode_bytes_array_Ok (ds : list bytes) :
  Z.of_nat (bytes_array_size ds) <= UINT_256_MAX →
  ∃ w, encode_bytes_array ds = Ok w.
Proof.
  unfold bytes_array_size. intros Hb.
  destruct (mapM_Ok_exists encode_bytes ds) as [chunks Hc];
    [apply encode_each_bytes_Ok; lia|].
  unfold encode_bytes_array, encode_array. rewrite Hc.
  cbn [mbind result_bind].
  rewrite encode_uint_256_Ok by lia. cbn [mbind result_bind].
  apply mapM_Ok_Forall2 in Hc.
  destruct (offset_heads_Ok chunks) as [heads Hh].
  { rewrite length_concat_sum, (sum_chunk_lengths ds chunks Hc),
      <- (Forall2_length _ _ _ Hc). lia. }
  rewrite encode_elements_dynamic, Hh. by eexists.
Qed.

Lemma valid_proxies_inv (l : list PyVal) :
  Forall valid_proxy l →
  ∃ cs, l = PContract <$> cs
        ∧ Forall (fun c => length (address c) = 20%nat) cs.
Proof.
  induction 1 as [|v l (c & -> & Hc) _ (cs & -> & Hcs)]; [by exists []|].
  exists (c :: cs). split; [done | by constructor].
Qed.

Lemma encode_resolved_addresses_Ok (cs : list Contract) :
  Forall (fun c => length (address c) = 20%nat) cs →
  Z.of_nat (length cs) <= UINT_256_MAX →
  ∃ w, encode_address_array ((PAddress ∘ address) <$> cs) = Ok w.
Proof.
  intros Hcs Hn. apply encode_array_static_Ok; [|by rewrite length_fmap].
  apply Forall_fmap. eapply Forall_impl; [exact Hcs|].
  intros c Hc. cbn. eexists. unfold encode_address. cbn [is_address].
  by rewrite bool_decide_eq_true_2.
Qed.

Lemma encode_amounts_Ok (vs : list Z) :
  Forall (fun z => 0 <= z <= UINT_256_MAX) vs →
  Z.of_nat (length vs) <= UINT_256_MAX →
  ∃ w, encode_uint256_array vs = Ok w.
Proof.
  intros Hvs Hn. apply encode_array_static_Ok; [|done].
  eapply Forall_impl; [exact Hvs|].
  intros z Hz. cbn. eexists. by apply encode_uint_256_Ok.
Qed.

Lemma execute_calls_args_Ok
    (incoming_assets : list PyVal) (min_incoming_asset_amounts : list Z)
    (spend_assets : list PyVal) (spend_asset_amounts : list Z)
    (external_calls : list (PyVal * bytes)) :
  Forall valid_proxy
         ((fst <$> external_calls) ++ incoming_assets ++ spend_assets) →
  Forall (fun z => 0 <= z <= UINT_256_MAX)
         (min_incoming_asset_amounts ++ spend_asset_amounts) →
  Z.of_nat (execute_calls_args_size
              incoming_assets min_incoming_asset_amounts
              spend_assets spend_asset_amounts external_calls)
    <= UINT_256_MAX →
  ∃ out,
    encode_generic_adapter_execute_calls_args
      incoming_assets min_incoming_asset_amounts
      spend_assets spend_asset_amounts external_calls = Ok out.
Proof.
  rewrite !Forall_app.
  intros ((tcs & Ht & Htcs)%valid_proxies_inv
          & (ics & -> & Hics)%valid_proxies_inv
          & (scs & -> & Hscs)%valid_proxies_inv)
         [Hmins Ham] Hsize.
  pose proof (ceil32_ge (external_calls_size external_calls)) as Hceil.
  unfold execute_calls_args_size, external_calls_size, word_array_size in *.
  rewrite !length_fmap in Hsize.
  assert (length tcs = length external_calls) as Htl
    by (rewrite <- (length_fmap fst external_calls), Ht; by rewrite length_fmap).
  unfold encode_generic_adapter_execute_calls_args.
  rewrite (mapM_result_fmap fst _addressify), Ht.
  fold (_addressify_collection (PContract <$> tcs)).
  rewrite (addressify_collection_resolves tcs). cbn [mbind result_bind].
  (* the external calls *)
  destruct (encode_resolved_addresses_Ok tcs Htcs) as [a Ha]; [lia|].
  destruct (encode_bytes_array_Ok
              ((fun t : PyVal * bytes => t.2) <$> external_calls)) as [d Hd];
    [change (fun t : PyVal * bytes => t.2) with (@snd PyVal bytes); lia|].
  pose proof (length_encode_address_array _ _ Ha) as Hla.
  pose proof (length_encode_bytes_array _ _ Hd) as Hld.
  unfold word_array_size in Hla. rewrite length_fmap in Hla.
  change (fun t : PyVal * bytes => t.2) with (@snd PyVal bytes) in *.
  destruct (encode_tuple_dynamic_Ok [a; d]) as [inner Hinner].
  { cbn [concat length]. rewrite !length_app. cbn [length]. lia. }
  assert (encode_external_calls ((PAddress ∘ address) <$> tcs)
                                (snd <$> external_calls) = Ok inner) as Hcalls.
  { unfold encode_external_calls. rewrite Ha, Hd. exact Hinner. }
  pose proof (length_encode_external_calls _ _ _ Hcalls) as Hli.
  unfold word_array_size in Hli. rewrite length_fmap in Hli.
  rewrite Hcalls. cbn [rewrap_encoding_error mbind result_bind].
  (* the outer tuple *)
  rewrite (addressify_collection_resolves ics),
    (addressify_collection_resolves scs). cbn [mbind result_bind].
  destruct (encode_resolved_addresses_Ok ics Hics) as [c0 H0]; [lia|].
  destruct (encode_amounts_Ok _ Hmins) as [c1 H1]; [lia|].
  destruct (encode_resolved_addresses_Ok scs Hscs) as [c2 H2]; [lia|].
  destruct (encode_amounts_Ok _ Ham) as [c3 H3]; [lia|].
  destruct (encode_bytes_Ok inner) as [c4 H4]; [lia|].
  pose proof (length_encode_address_array _ _ H0) as Hl0.
  pose proof (length_encode_uint256_array _ _ H1) as Hl1.
  pose proof (length_encode_address_array _ _ H2) as Hl2.
  pose proof (length_encode_uint256_array _ _ H3) as Hl3.
  pose proof (length_encode_bytes _ _ H4) as Hl4.
  unfold word_array_size in Hl0, Hl1, Hl2, Hl3. rewrite length_fmap in Hl0, Hl2.
  destruct (encode_tuple_dynamic_Ok [c0; c1; c2; c3; c4]) as [out Hout].
  { cbn [concat length]. rewrite !length_app. cbn [length].
    rewrite Hl0, Hl1, Hl2, Hl3, Hl4, Hli, Htl. lia. }
  exists out. unfold encode_execute_calls.
  rewrite H0, H1, H2, H3, H4. exact Hout.
Qed.
(** X5.  [encode_generic_adapter_execute_calls_args] returns on every
    well-formed input: when all asset references are contract proxies
    with 20-byte addresses, all amounts are unsigned 256-bit integers
    and the size of the encoding fits in 256 bits, it returns a byte
    string of exactly that size. *)
Theorem execute_calls_args_total
    (incoming_assets : list PyVal) (min_incoming_asset_amounts : list Z)
    (spend_assets : list PyVal) (spend_asset_amounts : list Z)
    (external_calls : list (PyVal * bytes)) :
  Forall valid_proxy
         ((fst <$> external_calls) ++ incoming_assets ++ spend_assets) →
  Forall (fun z => 0 <= z <= UINT_256_MAX)
         (min_incoming_asset_amounts ++ spend_asset_amounts) →
  Z.of_nat (execute_calls_args_size
              incoming_assets min_incoming_asset_amounts
              spend_assets spend_asset_amounts external_calls)
    <= UINT_256_MAX →
  ∃ out,
    encode_generic_adapter_execute_calls_args
      incoming_assets min_incoming_asset_amounts
      spend_assets spend_asset_amounts external_calls = Ok out
    ∧ length out
      = execute_calls_args_size
          incoming_assets min_incoming_asset_amounts
          spend_assets spend_asset_amounts external_calls.
Proof.
  intros Hassets Hamounts Hsize.
  destruct (execute_calls_args_Ok _ _ _ _ _ Hassets Hamounts Hsize)
    as [out Hout].
  exists out. split; [done|]. by apply execute_calls_args_length_eq.
Qed.
Lemma example_assets_valid :
  Forall valid_proxy
         ((fst <$> [(PContract Examples.ROUTER, Examples.swap_calldata)])
            ++ [PContract Examples.WETH] ++ [PContract Examples.USDC]).
Proof. repeat constructor; by eexists. Qed.

Lemma example_amounts_in_range :
  Forall (fun z => 0 <= z <= UINT_256_MAX) ([1] ++ [500000000]).
Proof. repeat constructor; by vm_compute. Qed.

Lemma example_size_fits :
  Z.of_nat (execute_calls_args_size
              [PContract Examples.WETH] [1] [PContract Examples.USDC]
              [500000000]
              [(PContract Examples.ROUTER, Examples.swap_calldata)])
    <= UINT_256_MAX.
Proof. vm_compute. discriminate. Qed.

(** X5, witness: the swap of the end-to-end example. *)
Lemma execute_calls_args_total_witness :
  Forall valid_proxy
         ((fst <$> [(PContract Examples.ROUTER, Examples.swap_calldata)])
            ++ [PContract Examples.WETH] ++ [PContract Examples.USDC])
  ∧ Forall (fun z => 0 <= z <= UINT_256_MAX) ([1] ++ [500000000])
  ∧ Z.of_nat (execute_calls_args_size
                [PContract Examples.WETH] [1] [PContract Examples.USDC]
                [500000000]
                [(PContract Examples.ROUTER, Examples.swap_calldata)])
      <= UINT_256_MAX
  ∧ ∃ out,
      encode_generic_adapter_execute_calls_args
        [PContract Examples.WETH] [1] [PContract Examples.USDC] [500000000]
        [(PContract Examples.ROUTER, Examples.swap_calldata)] = Ok out
      ∧ length out
        = execute_calls_args_size
            [PContract Examples.WETH] [1] [PContract Examples.USDC]
            [500000000]
            [(PContract Examples.ROUTER, Examples.swap_calldata)].
Proof.
  split; [exact example_assets_valid|].
  split; [exact example_amounts_in_range|].
  split; [exact example_size_fits|].
  exact (execute_calls_args_total _ _ _ _ _ example_assets_valid
           example_amounts_in_range example_size_fits).
Defined.
End Totality.

(** ** The adapter call reaches the transaction builder *)

Section ExecuteCallsTotal.
Import Abi GenericAdapter ExecuteCalls.
Variable keccak : bytes → bytes.
Variable CallOnIntegration_value : Z.
Variable callOnExtension_build_transaction :
  Contract → PyVal → Z → bytes → result TxParams.

Lemma length_non_empty {A} (l : list A) : l ≠ [] → (0 < length l)%nat.
Proof. destruct l; [done | cbn; lia]. Qed.

Lemma encode_call_on_integration_Ok (c : Contract) (sel args : bytes) :
  length (address c) = 20%nat →
  length sel = 4%nat →
  Z.of_nat (length args) <= UINT_256_MAX →
  ∃ w, encode_call_on_integration (PAddress (address c)) sel args = Ok w.
Proof.
  intros Hc Hsel Hargs. unfold encode_call_on_integration, encode_address.
  cbn [is_address]. rewrite bool_decide_eq_true_2 by done.
  cbn [mbind result_bind]. unfold encode_bytesN.
  rewrite bool_decide_eq_true_2 by lia. cbn [mbind result_bind].
  destruct (encode_bytes_Ok args Hargs) as [c2 H2]. rewrite H2.
  cbn [mbind result_bind]. unfold encode_tuple.
  cbn [fmap list_fmap fst snd tail_offsets_from zip zip_with mapM sum_list
       sum_list_with head_chunk_length length mbind result_bind].
  unfold zpad, zpad_right. cbn [to_canonical_address].
  rewrite !length_app, !length_replicate, Hc, Hsel.
  rewrite encode_uint_256_Ok by (unfold UINT_256_MAX; cbn; lia).
  by eexists.
Qed.

(** X8.  On well-formed input [execute_calls_for_generic_adapter] gets
    as far as web3's transaction builder and returns whatever the
    builder returns: the three contracts are proxies, no list is
    empty, the assets and amounts are as for the encoder, and the hash
    function gives 32 bytes. *)
Theorem execute_calls_reaches_build_transaction
    (c ga im : Contract)
    (external_calls : list (PyVal * bytes))
    (incoming_assets spend_assets : list PyVal)
    (min_incoming_asset_amounts spend_asset_amounts : list Z) :
  length (keccak (String.list_byte_of_string
                    "executeCalls(address,bytes,bytes)")) = 32%nat →
  length (address ga) = 20%nat →
  external_calls ≠ [] → incoming_assets ≠ [] → spend_assets ≠ [] →
  min_incoming_asset_amounts ≠ [] → spend_asset_amounts ≠ [] →
  Forall valid_proxy
         ((fst <$> external_calls) ++ incoming_assets ++ spend_assets) →
  Forall (fun z => 0 <= z <= UINT_256_MAX)
         (min_incoming_asset_amounts ++ spend_asset_amounts) →
  Z.of_nat (execute_calls_args_size
              incoming_assets min_incoming_asset_amounts
              spend_assets spend_asset_amounts external_calls)
    <= UINT_256_MAX →
  ∃ call_args,
    execute_calls_for_generic_adapter
      keccak CallOnIntegration_value callOnExtension_build_transaction
      (PContract c) external_calls (PContract ga) (PContract im)
      incoming_assets min_incoming_asset_amounts
      spend_assets spend_asset_amounts
    = callOnExtension_build_transaction
        c (PAddress (address im)) CallOnIntegration_value call_args.
Proof.
  intros Hk Hga Hcalls Hinc Hsp Hmins Ham Hassets Hamounts Hsize.
  destruct (execute_calls_args_Ok _ _ _ _ _ Hassets Hamounts Hsize)
    as [blob Hblob].
  unfold execute_calls_for_generic_adapter.
  cbn [isinstance class_of PyClass_eqb orb assert_ mbind result_bind].
  rewrite !bool_decide_eq_true_2 by (by apply length_non_empty).
  cbn [assert_ mbind result_bind]. rewrite Hblob. cbn [mbind result_bind].
  pose proof (execute_calls_args_length_eq _ _ _ _ _ _ Hblob) as Hlen.
  unfold encode_call_on_integration_args, EXECUTE_CALLS_SELECTOR.
  cbn [type_in_bytes_HexBytes type_ class_of py_eq PyClass_eqb orb
       bytes_content assert_ mbind result_bind].
  rewrite length_take, Hk.
  rewrite (bool_decide_eq_true_2 ((4 `min` 32)%nat = 4%nat)) by reflexivity.
  rewrite (bool_decide_eq_true_2 (0 < length blob)%nat)
    by (rewrite Hlen; unfold execute_calls_args_size; lia).
  cbn [assert_ mbind result_bind]. rewrite addressify_contract.
  cbn [mbind result_bind].
  destruct (encode_call_on_integration_Ok ga
              (take 4 (keccak (String.list_byte_of_string
                                 "executeCalls(address,bytes,bytes)")))
              blob) as [call_args Hcall];
    [done | by rewrite length_take, Hk | rewrite Hlen; unfold execute_calls_args_size in *; lia |].
  rewrite Hcall. cbn [mbind result_bind get_address]. by exists call_args.
Qed.
End ExecuteCallsTotal.

(** X8, witness: the example swap sent through an adapter. *)
Lemma execute_calls_reaches_build_transaction_witness :
  length (ExecuteCallsExamples.keccak
            (String.list_byte_of_string
               "executeCalls(address,bytes,bytes)")) = 32%nat
  ∧ length (address ExecuteCallsExamples.ADAPTER) = 20%nat
  ∧ [(PContract Examples.ROUTER, Examples.swap_calldata)] ≠ []
  ∧ [PContract Examples.WETH] ≠ []
  ∧ [PContract Examples.USDC] ≠ []
  ∧ [1] ≠ []
  ∧ [500000000] ≠ []
  ∧ Forall valid_proxy
           ((fst <$> [(PContract Examples.ROUTER, Examples.swap_calldata)])
              ++ [PContract Examples.WETH] ++ [PContract Examples.USDC])
  ∧ Forall (fun z => 0 <= z <= Abi.UINT_256_MAX) ([1] ++ [500000000])
  ∧ Z.of_nat (execute_calls_args_size
                [PContract Examples.WETH] [1] [PContract Examples.USDC]
                [500000000]
                [(PContract Examples.ROUTER, Examples.swap_calldata)])
      <= Abi.UINT_256_MAX
  ∧ ∃ call_args,
      ExecuteCalls.execute_calls_for_generic_adapter
        ExecuteCallsExamples.keccak 0 ExecuteCallsExamples.build_transaction
        (PContract ExecuteCallsExamples.COMPTROLLER)
        [(PContract Examples.ROUTER, Examples.swap_calldata)]
        (PContract ExecuteCallsExamples.ADAPTER)
        (PContract ExecuteCallsExamples.MANAGER)
        [PContract Examples.WETH] [1] [PContract Examples.USDC] [500000000]
      = ExecuteCallsExamples.build_transaction
          ExecuteCallsExamples.COMPTROLLER
          (PAddress (address ExecuteCallsExamples.MANAGER)) 0 call_args.
Proof.
  assert (length (ExecuteCallsExamples.keccak
                    (String.list_byte_of_string
                       "executeCalls(address,bytes,bytes)")) = 32%nat)
    as Hk by reflexivity.
  assert (length (address ExecuteCallsExamples.ADAPTER) = 20%nat)
    as Hga by reflexivity.
  assert ([(PContract Examples.ROUTER, Examples.swap_calldata)] ≠ [])
    as H1 by discriminate.
  assert ([PContract Examples.WETH] ≠ []) as H2 by discriminate.
  assert ([PContract Examples.USDC] ≠ []) as H3 by discriminate.
  assert ([1] ≠ []) as H4 by discriminate.
  assert ([500000000] ≠ []) as H5 by discriminate.
  repeat (split; [assumption|]).
  split; [exact example_assets_valid|].
  split; [exact example_amounts_in_range|].
  split; [exact example_size_fits|].
  exact (execute_calls_reaches_build_transaction
           ExecuteCallsExamples.keccak 0 ExecuteCallsExamples.build_transaction
           ExecuteCallsExamples.COMPTROLLER ExecuteCallsExamples.ADAPTER
           ExecuteCallsExamples.MANAGER _ _ _ _ _
           Hk Hga H1 H2 H3 H4 H5
           example_assets_valid example_amounts_in_range example_size_fits).
Defined.

(** ** Further properties of the wallet *)

Section WalletExtras.
Import Wallet.

(** X9.  Passing the same request dict to
    [sign_transaction_with_new_nonce] a second time is always refused:
    after the first call the dict has a nonce, whether the call was
    rejected or not, so the second call raises [AssertionError] and
    leaves the wallet and the dict as the first call left them. *)
Theorem sign_same_request_twice
    (sign_transaction : LocalAccount → tx_dict → SignedTransaction)
    (self : VaultControlledWallet) (tx : tx_dict) :
  let first := sign_transaction_with_new_nonce sign_transaction self tx in
  let self1 := first.1.2 in
  let tx1 := first.2 in
  is_Some (tx1 !! "nonce")
  ∧ sign_transaction_with_new_nonce sign_transaction self1 tx1
    = (Raise (AssertionError NoMessage), self1, tx1).
Proof.
  intros first self1 tx1.
  assert (is_Some (tx1 !! "nonce")) as Hn.
  { subst tx1 first. unfold sign_transaction_with_new_nonce.
    case_bool_decide as Hn; [done|].
    destruct (allocate_nonce self) as [nonce self']. cbn [snd].
    rewrite lookup_insert_eq. by eexists. }
  split; [done|].
  unfold sign_transaction_with_new_nonce at 1.
  by rewrite bool_decide_eq_true_2.
Qed.

(** X10.  The members written against an [account] attribute and an
    [Account] class never return: the [address] property and
    [get_native_currency_balance] raise [AttributeError] (the balance
    is not read), and [from_private_key] raises [AssertionError] for a
    key without the [0x] prefix and [NameError] otherwise. *)
Theorem members_reading_account_raise :
  (∀ self, WalletMembers.address self = Raise (AttributeError "account"))
  ∧ (∀ (Decimal : Type) (from_wei : Z → string → Decimal)
       (get_balance : PyVal → result Z) self,
       WalletMembers.get_native_currency_balance Decimal from_wei get_balance self
       = Raise (AttributeError "account"))
  ∧ (∀ (from_key : string → result LocalAccount) (key : string),
       WalletMembers.from_private_key from_key key
       = if String.prefix "0x" key
         then Raise (NameError "Account")
         else Raise (AssertionError NoMessage)).
Proof.
  split; [done|]. split; [done|].
  intros from_key key. unfold WalletMembers.from_private_key.
  by destruct (String.prefix "0x" key).
Qed.
End WalletExtras.

(** ** Further properties of the connection factory *)

Section FactoryExtras.
Import Web3Factory.

Lemma run_app (c1 c2 : list (TunedWeb3Factory * thread)) (w : World) :
  run (c1 ++ c2) w = run c2 (run c1 w).
Proof.
  revert w. induction c1 as [|[f t] c1 IH]; intros w; [done|].
  cbn [app run]. apply IH.
Qed.

Lemma call_handed_out f t k w :
  handed_out k w → handed_out k (__call__ f t w).2.
Proof.
  intros [Hk Hno]. destruct (thread_local_cache f) eqn:Hc.
  - destruct (_web3_thread_local_cache w !! t) as [h|] eqn:Hh.
    + by rewrite (call_hit f t w h).
    + rewrite call_miss by done. split; cbn; [lia|].
      intros t' h'. rewrite lookup_insert.
      case_decide; [intros [= <-]; cbn; lia | apply Hno].
  - rewrite call_uncached by done. split; cbn; [lia | apply Hno].
Qed.

Lemma run_handed_out calls k w :
  handed_out k w → handed_out k (run calls w).
Proof.
  revert w. induction calls as [|[f t] calls IH]; intros w Hw; [done|].
  cbn [run]. by apply IH, call_handed_out.
Qed.

Lemma call_result_not_handed_out f t k w :
  handed_out k w → obj_id (__call__ f t w).1 ≠ k.
Proof.
  intros [Hk Hno]. unfold __call__.
  destruct (if thread_local_cache f then _ else _) as [h|] eqn:Hh.
  - cbn. destruct (thread_local_cache f); [by eapply Hno | done].
  - cbn. lia.
Qed.

(** X11.  A factory without [thread_local_cache] builds a new connection
    at every invocation and leaves the thread-local store as it is;
    that connection is never returned again, by no factory on no
    thread. *)
Theorem uncached_connection_is_fresh
    (f : TunedWeb3Factory) (t : thread)
    (history later : list (TunedWeb3Factory * thread))
    (f' : TunedWeb3Factory) (t' : thread) :
  thread_local_cache f = false →
  let w0 := run history initial_world in
  let made := __call__ f t w0 in
  made.1 = new_web3 f w0
  ∧ _web3_thread_local_cache made.2 = _web3_thread_local_cache w0
  ∧ obj_id (__call__ f' t' (run later made.2)).1 ≠ obj_id made.1.
Proof.
  intros Hc w0 made. subst made. rewrite call_uncached by done.
  cbn [fst snd]. split; [done|]. split; [done|].
  apply call_result_not_handed_out, run_handed_out.
  destruct (run_cache_ok history initial_world initial_cache_ok) as [Hold _].
  fold w0 in Hold. split; cbn; [lia|].
  intros t1 h1 H1%Hold. lia.
Qed.

Lemma caching_threads_cons_cached f t calls :
  thread_local_cache f = true →
  caching_threads ((f, t) :: calls) = {[t]} ∪ caching_threads calls.
Proof.
  intros Hc. unfold caching_threads.
  rewrite filter_cons_True by done. done.
Qed.

Lemma caching_threads_cons_uncached f t calls :
  thread_local_cache f = false →
  caching_threads ((f, t) :: calls) = caching_threads calls.
Proof.
  intros Hc. unfold caching_threads.
  rewrite filter_cons_False; [done|]. cbn. congruence.
Qed.

Lemma uncached_calls_cons_cached f t calls :
  thread_local_cache f = true →
  uncached_calls ((f, t) :: calls) = uncached_calls calls.
Proof.
  intros Hc. unfold uncached_calls.
  rewrite filter_cons_False; [done|]. cbn. congruence.
Qed.

Lemma uncached_calls_cons_uncached f t calls :
  thread_local_cache f = false →
  uncached_calls ((f, t) :: calls) = S (uncached_calls calls).
Proof.
  intros Hc. unfold uncached_calls.
  by rewrite filter_cons_True by done.
Qed.

Lemma run_cached_threads calls w :
  dom (_web3_thread_local_cache (run calls w))
  = dom (_web3_thread_local_cache w) ∪ caching_threads calls.
Proof.
  revert w. induction calls as [|[f t] calls IH]; intros w.
  - cbn [run]. unfold caching_threads. cbn. set_solver.
  - cbn [run]. rewrite IH. destruct (thread_local_cache f) eqn:Hc.
    + rewrite caching_threads_cons_cached by done.
      destruct (_web3_thread_local_cache w !! t) as [h|] eqn:Hh.
      * rewrite (call_hit f t w h) by done. cbn [snd].
        assert (t ∈ dom (_web3_thread_local_cache w))
          by (apply elem_of_dom; eauto).
        set_solver.
      * rewrite call_miss by done. cbn [snd _web3_thread_local_cache].
        rewrite dom_insert_L. set_solver.
    + rewrite caching_threads_cons_uncached, call_uncached by done.
      done.
Qed.

Lemma run_next_obj calls w :
  next_obj (run calls w)
  = (next_obj w + uncached_calls calls
     + size (caching_threads calls ∖ dom (_web3_thread_local_cache w)))%nat.
Proof.
  revert w. induction calls as [|[f t] calls IH]; intros w.
  - cbn [run]. unfold caching_threads, uncached_calls. cbn.
    replace (∅ ∖ dom (_web3_thread_local_cache w)) with (∅ : gset nat)
      by set_solver.
    rewrite size_empty. lia.
  - cbn [run]. rewrite IH. destruct (thread_local_cache f) eqn:Hc.
    + rewrite caching_threads_cons_cached, uncached_calls_cons_cached by done.
      destruct (_web3_thread_local_cache w !! t) as [h|] eqn:Hh.
      * rewrite (call_hit f t w h) by done. cbn [snd].
        assert (t ∈ dom (_web3_thread_local_cache w))
          by (apply elem_of_dom; eauto).
        replace (({[t]} ∪ caching_threads calls) ∖ dom (_web3_thread_local_cache w))
          with (caching_threads calls ∖ dom (_web3_thread_local_cache w))
          by set_solver.
        done.
      * rewrite call_miss by done.
        cbn [snd _web3_thread_local_cache next_obj].
        rewrite dom_insert_L.
        assert (t ∉ dom (_web3_thread_local_cache w))
          by (by apply not_elem_of_dom).
        replace (({[t]} ∪ caching_threads calls) ∖ dom (_web3_thread_local_cache w))
          with ({[t]} ∪ (caching_threads calls
                         ∖ ({[t]} ∪ dom (_web3_thread_local_cache w))))
          by (apply set_eq; intros x; destruct (decide (x = t)); set_solver).
        assert ({[t]} ## caching_threads calls
                       ∖ ({[t]} ∪ dom (_web3_thread_local_cache w)))
          as Hdisj by set_solver.
        rewrite (size_union _ _ Hdisj).
        rewrite size_singleton. lia.
    + rewrite caching_threads_cons_uncached, uncached_calls_cons_uncached,
        call_uncached by done.
      cbn [snd _web3_thread_local_cache next_obj]. lia.
Qed.

(** X12.  After any history of invocations, the threads that hold a
    cached connection are exactly those on which a caching factory was
    invoked, and one connection was built for each of them and one for
    every invocation of a factory that does not cache. *)
Theorem one_connection_per_caching_thread
    (history : list (TunedWeb3Factory * thread)) :
  let w := run history initial_world in
  dom (_web3_thread_local_cache w) = caching_threads history
  ∧ next_obj w
    = (size (caching_threads history) + uncached_calls history)%nat.
Proof.
  intros w. subst w. split.
  - rewrite run_cached_threads. cbn. set_solver.
  - rewrite run_next_obj. cbn.
    replace (caching_threads history ∖ dom (∅ : gmap thread Web3))
      with (caching_threads history) by set_solver.
    lia.
Qed.

(** X13.  The first caching factory invoked on a thread owns the
    thread's slot for good: after any further invocations the slot
    holds the connection that factory built, bound to its URL and its
    session adapter, and every caching factory returns it on that
    thread. *)
Theorem first_caching_factory_owns_the_slot
    (before after : list (TunedWeb3Factory * thread))
    (f f' : TunedWeb3Factory) (t : thread) :
  thread_local_cache f = true →
  thread_local_cache f' = true →
  t ∉ caching_threads before →
  let w := run (before ++ (f, t) :: after) initial_world in
  ∃ h, _web3_thread_local_cache w !! t = Some h
       ∧ endpoint h = json_rpc_url f
       ∧ session_adapter h = http_adapter f
       ∧ __call__ f' t w = (h, w).
Proof.
  intros Hc Hc' Hnot w. subst w. rewrite run_app. cbn [run].
  set (w0 := run before initial_world).
  assert (_web3_thread_local_cache w0 !! t = None) as Hnone.
  { apply not_elem_of_dom. subst w0. rewrite run_cached_threads.
    cbn. set_solver. }
  pose proof (call_stores f t w0 Hc) as Hstored.
  rewrite call_miss in Hstored |- * by done. cbn [fst snd] in *.
  set (w1 := {| _web3_thread_local_cache := _; next_obj := _ |}) in *.
  pose proof (run_keeps_slot after t w1 _ Hstored) as Hkept.
  exists (new_web3 f w0). split; [done|]. split; [done|]. split; [done|].
  by apply call_hit.
Qed.
End FactoryExtras.

(** X11, witness: a factory that does not cache, used on thread A between
    invocations of caching factories. *)
Lemma uncached_connection_is_fresh_witness :
  Web3Factory.thread_local_cache FurtherFactoryExamples.uncached = false
  ∧ let w0 := Web3Factory.run
                [(FactoryExamples.polygon, FactoryExamples.thread_C)]
                Web3Factory.initial_world in
    let made := Web3Factory.__call__ FurtherFactoryExamples.uncached
                  FactoryExamples.thread_A w0 in
    made.1 = Web3Factory.new_web3 FurtherFactoryExamples.uncached w0
    ∧ Web3Factory._web3_thread_local_cache made.2
      = Web3Factory._web3_thread_local_cache w0
    ∧ Web3Factory.obj_id
        (Web3Factory.__call__ FactoryExamples.mainnet FactoryExamples.thread_A
           (Web3Factory.run
              [(FurtherFactoryExamples.uncached, FactoryExamples.thread_A)]
              made.2)).1
      ≠ Web3Factory.obj_id made.1.
Proof.
  split; [reflexivity|].
  exact (uncached_connection_is_fresh FurtherFactoryExamples.uncached
           FactoryExamples.thread_A
           [(FactoryExamples.polygon, FactoryExamples.thread_C)]
           [(FurtherFactoryExamples.uncached, FactoryExamples.thread_A)]
           FactoryExamples.mainnet FactoryExamples.thread_A eq_refl).
Defined.

Lemma thread_A_not_cached_yet :
  FactoryExamples.thread_A
    ∉ caching_threads [(FactoryExamples.polygon, FactoryExamples.thread_C);
                       (FurtherFactoryExamples.uncached,
                        FactoryExamples.thread_A)].
Proof.
  rewrite caching_threads_cons_cached by reflexivity.
  rewrite caching_threads_cons_uncached by reflexivity.
  unfold caching_threads, FactoryExamples.thread_A, FactoryExamples.thread_C.
  cbn. set_solver.
Qed.

(** X13, witness: mainnet is the first caching factory on thread A;
    polygon comes later on the same thread. *)
Lemma first_caching_factory_owns_the_slot_witness :
  Web3Factory.thread_local_cache FactoryExamples.mainnet = true
  ∧ Web3Factory.thread_local_cache FactoryExamples.polygon = true
  ∧ (FactoryExamples.thread_A
       ∉ caching_threads [(FactoryExamples.polygon, FactoryExamples.thread_C);
                          (FurtherFactoryExamples.uncached,
                           FactoryExamples.thread_A)])
  ∧ let w := Web3Factory.run
               ([(FactoryExamples.polygon, FactoryExamples.thread_C);
                 (FurtherFactoryExamples.uncached, FactoryExamples.thread_A)]
                  ++ (FactoryExamples.mainnet, FactoryExamples.thread_A)
                  :: [(FactoryExamples.polygon, FactoryExamples.thread_A)])
               Web3Factory.initial_world in
    ∃ h, Web3Factory._web3_thread_local_cache w !! FactoryExamples.thread_A
         = Some h
         ∧ Web3Factory.endpoint h
           = Web3Factory.json_rpc_url FactoryExamples.mainnet
         ∧ Web3Factory.session_adapter h
           = Web3Factory.http_adapter FactoryExamples.mainnet
         ∧ Web3Factory.__call__ FactoryExamples.polygon
             FactoryExamples.thread_A w = (h, w).
Proof.
  split; [reflexivity|]. split; [reflexivity|].
  split; [exact thread_A_not_cached_yet|].
  exact (first_caching_factory_owns_the_slot _ _
           FactoryExamples.mainnet FactoryExamples.polygon
           FactoryExamples.thread_A eq_refl eq_refl thread_A_not_cached_yet).
Defined.

(** ** The contract registry and deployment *)

Section RegistryExtras.
Import Deploy.

Lemma registry_after_register web3 a i :
  (get_or_create_contract_registry (register_contract web3 a i)).1
  = <[a := i]> (get_or_create_contract_registry web3).1.
Proof.
  unfold register_contract, get_or_create_contract_registry.
  destruct web3 as [[r|]]; cbn; reflexivity.
Qed.

Lemma registry_after_get web3 :
  (get_or_create_contract_registry
     (get_or_create_contract_registry web3).2).1
  = (get_or_create_contract_registry web3).1.
Proof.
  unfold get_or_create_contract_registry.
  destruct web3 as [[r|]]; cbn; reflexivity.
Qed.

(** X14.  After [register_contract(web3, a, i)] the registry of the
    connection maps [a] to [i] and every other address to what it held
    before; registering [a] again replaces the earlier entry. *)
Theorem register_then_lookup (web3 : Web3) (a : string) (i : ContractInstance) :
  let registry :=
    (get_or_create_contract_registry (register_contract web3 a i)).1 in
  registry !! a = Some i
  ∧ (∀ b, b ≠ a →
          registry !! b = (get_or_create_contract_registry web3).1 !! b)
  ∧ (∀ j, (get_or_create_contract_registry
             (register_contract (register_contract web3 a j) a i)).1
          = registry).
Proof.
  intros registry. subst registry. rewrite !registry_after_register.
  split; [apply lookup_insert_eq|]. split.
  - intros b Hb. by rewrite lookup_insert_ne.
  - intros j. rewrite !registry_after_register. by rewrite insert_insert_eq.
Qed.

(** X15.  Registry entries are never removed: an address that is
    registered stays registered through any sequence of
    [register_contract] and [get_or_create_contract_registry] calls,
    and keeps its instance as long as the address itself is not
    registered again. *)
Theorem registry_entries_persist
    (calls : list registry_call) (web3 : Web3) (a : string)
    (i : ContractInstance) :
  (get_or_create_contract_registry web3).1 !! a = Some i →
  is_Some ((get_or_create_contract_registry (run_calls calls web3)).1 !! a)
  ∧ (Forall (fun c => ∀ j, c ≠ Register a j) calls →
     (get_or_create_contract_registry (run_calls calls web3)).1 !! a = Some i).
Proof.
  revert web3 i. unfold run_calls.
  induction calls as [|c calls IH]; intros web3 i Hi; [by eauto|].
  cbn [foldl]. destruct c as [b j|]; cbn [run_call].
  - destruct (decide (b = a)) as [->|Hne].
    + destruct (IH (register_contract web3 a j) j) as [IH1 _].
      { rewrite registry_after_register. apply lookup_insert_eq. }
      split; [done|]. intros Hno. apply Forall_cons_1 in Hno as [Hno _].
      by destruct (Hno j).
    + destruct (IH (register_contract web3 b j) i) as [IH1 IH2].
      { rewrite registry_after_register. by rewrite lookup_insert_ne. }
      split; [done|]. intros Hno. apply Forall_cons_1 in Hno as [_ Hno]. auto.
  - destruct (IH (get_or_create_contract_registry web3).2 i) as [IH1 IH2].
    { by rewrite registry_after_get. }
    split; [done|]. intros Hno. apply Forall_cons_1 in Hno as [_ Hno]. auto.
Qed.

(** X16.  [get_or_create_contract_registry] creates the registry once: a
    second call returns the same registry and changes nothing, the
    connection refers to the registry returned, a connection without
    registry gets the empty one, and a connection that has a registry
    is left as it is. *)
Theorem get_or_create_is_idempotent (web3 : Web3) :
  let first := get_or_create_contract_registry web3 in
  get_or_create_contract_registry first.2 = first
  ∧ contract_registry first.2 = Some first.1
  ∧ (contract_registry web3 = None → first.1 = ∅)
  ∧ (is_Some (contract_registry web3) → first.2 = web3).
Proof.
  intros first. subst first. unfold get_or_create_contract_registry.
  destruct web3 as [[r|]]; cbn; repeat split; done.
Qed.
End RegistryExtras.

Section DeployExtras.
Import Deploy.
Variable Chain : Type.
Variable TxHash : Type.
Variable get_contract : Web3 → string → result ProxyClass.
Variable transact :
  Chain → ProxyClass → list PyVal → string → result TxHash * Chain.
Variable wait_for_transaction_receipt :
  Chain → TxHash → result TxReceipt * Chain.

Abbreviation deploy :=
  (deploy_contract Chain TxHash get_contract transact
                   wait_for_transaction_receipt).

(** X17.  A deployment that is mined, with [register_for_tracing] on,
    returns the proxy bound to the receipt's contract address, named
    after the contract, and records that very proxy in the registry
    under the address; the other entries stay. *)
Theorem deploy_registers_instance
    (web3 : Web3) (chain chain1 chain2 : Chain) (contract : ContractArg)
    (deployer : string) (constructor_args : list PyVal)
    (cls : ProxyClass) (contract_name : option string)
    (tx_hash : TxHash) (tx_receipt : TxReceipt) :
  resolve_contract get_contract web3 contract = Ok (cls, contract_name) →
  transact chain cls constructor_args deployer = (Ok tx_hash, chain1) →
  wait_for_transaction_receipt chain1 tx_hash = (Ok tx_receipt, chain2) →
  let instance :=
    mkInstance cls (contractAddress tx_receipt) (Some contract_name) in
  let deployed := deploy web3 chain contract deployer constructor_args true in
  deployed.1.1 = Ok instance
  ∧ deployed.2 = chain2
  ∧ (get_or_create_contract_registry deployed.1.2).1
    = <[contractAddress tx_receipt := instance]>
        (get_or_create_contract_registry web3).1.
Proof.
  intros Hres Htx Hwait instance deployed. subst deployed.
  unfold deploy_contract. rewrite Hres, Htx, Hwait. cbn [fst snd].
  split; [done|]. split; [done|]. apply registry_after_register.
Qed.

(** X18.  [deploy_contract] touches the connection object only to record
    a mined deployment: with [register_for_tracing] off, or when the
    call raises, the object is left as it was; without tracing the
    proxy returned has no [name]; and an exception it raises is the
    one raised by the artifact lookup, by the constructor transaction
    or by the wait for the receipt, unchanged. *)
Theorem deploy_leaves_registry_alone
    (web3 : Web3) (chain : Chain) (contract : ContractArg)
    (deployer : string) (constructor_args : list PyVal)
    (register_for_tracing : bool) :
  let deployed :=
    deploy web3 chain contract deployer constructor_args
           register_for_tracing in
  (register_for_tracing = false ∨ is_raise deployed.1.1 = true →
   deployed.1.2 = web3)
  ∧ (register_for_tracing = false →
     ∀ instance, deployed.1.1 = Ok instance → name instance = None)
  ∧ (∀ e, deployed.1.1 = Raise e →
       resolve_contract get_contract web3 contract = Raise e
       ∨ (∃ cls n,
            resolve_contract get_contract web3 contract = Ok (cls, n)
            ∧ ((transact chain cls constructor_args deployer).1 = Raise e
               ∨ ∃ tx_hash chain1,
                   transact chain cls constructor_args deployer
                   = (Ok tx_hash, chain1)
                   ∧ (wait_for_transaction_receipt chain1 tx_hash).1
                     = Raise e))).
Proof.
  intros deployed. subst deployed. unfold deploy_contract.
  destruct (resolve_contract get_contract web3 contract)
    as [[cls n]|e0] eqn:Hres.
  2:{ cbn. split; [done|]. split; [done|]. intros e [= <-]. by left. }
  destruct (transact chain cls constructor_args deployer)
    as [[tx_hash|e1] chain1] eqn:Htx.
  2:{ cbn. split; [done|]. split; [done|]. intros e [= <-].
      right. exists cls, n. split; [done|]. left. by rewrite Htx. }
  destruct (wait_for_transaction_receipt chain1 tx_hash)
    as [[tx_receipt|e2] chain2] eqn:Hwait.
  2:{ cbn. split; [done|]. split; [done|]. intros e [= <-].
      right. exists cls, n. split; [done|]. right.
      exists tx_hash, chain1. by rewrite Htx, Hwait. }
  destruct register_for_tracing; cbn.
  - split; [by intros [?|?]|]. split; [done|]. done.
  - split; [done|]. split; [|done]. by intros _ instance [= <-].
Qed.

Lemma prefix_other_char (c : ascii) (old s : string) (d : ascii) :
  Ascii.eqb c d = false → String.prefix (String d old) (String c s) = false.
Proof.
  intros Hcd. cbn [String.prefix].
  destruct (ascii_dec d c) as [->|]; [|done].
  by rewrite Ascii.eqb_refl in Hcd.
Qed.

Lemma replace_json_suffix (base : string) :
  dot_free base = true →
  str_replace (base +:+ ".json") ".json" "" = base.
Proof.
  unfold str_replace. induction base as [|c base IH]; [done|].
  cbn [dot_free]. intros [Hc Hb]%andb_prop.
  apply negb_true_iff in Hc.
  change (String c base +:+ ".json")%string
    with (String c (base +:+ ".json")).
  cbn [replace_from].
  rewrite (prefix_other_char c "json" _ "." Hc). by rewrite IH.
Qed.

(** X19.  Deploying by file name names the contract after the file: for
    a name without dots followed by [.json], the contract name is the
    name without the suffix. *)
Theorem deploy_by_name_strips_json
    (web3 : Web3) (base : string) (cls : ProxyClass) :
  dot_free base = true →
  get_contract web3 (base +:+ ".json") = Ok cls →
  resolve_contract get_contract web3 (ByName (base +:+ ".json"))
  = Ok (cls, Some base).
Proof.
  intros Hb Hget. unfold resolve_contract. rewrite Hget.
  cbn [mbind result_bind]. by rewrite replace_json_suffix.
Qed.
End DeployExtras.

Lemma example_token_registered :
  (Deploy.get_or_create_contract_registry
     (Deploy.register_contract DeployExamples.fresh
        DeployExamples.token_address DeployExamples.token)).1
    !! DeployExamples.token_address
  = Some DeployExamples.token.
Proof. rewrite registry_after_register. apply lookup_insert_eq. Qed.

Lemma example_calls_spare_token :
  Forall (fun c => ∀ j, c ≠ Deploy.Register DeployExamples.token_address j)
         [Deploy.GetOrCreate;
          Deploy.Register "0x0000000000000000000000000000000000000001"
                          DeployExamples.token].
Proof. repeat constructor; intros j; discriminate. Qed.

(** X15, witness: a registered token, then a look at the registry and the
    registration of another address. *)
Lemma registry_entries_persist_witness :
  (Deploy.get_or_create_contract_registry
     (Deploy.register_contract DeployExamples.fresh
        DeployExamples.token_address DeployExamples.token)).1
    !! DeployExamples.token_address
  = Some DeployExamples.token
  ∧ is_Some
      ((Deploy.get_or_create_contract_registry
          (Deploy.run_calls
             [Deploy.GetOrCreate;
              Deploy.Register "0x0000000000000000000000000000000000000001"
                              DeployExamples.token]
             (Deploy.register_contract DeployExamples.fresh
                DeployExamples.token_address DeployExamples.token))).1
         !! DeployExamples.token_address)
  ∧ (Deploy.get_or_create_contract_registry
       (Deploy.run_calls
          [Deploy.GetOrCreate;
           Deploy.Register "0x0000000000000000000000000000000000000001"
                           DeployExamples.token]
          (Deploy.register_contract DeployExamples.fresh
             DeployExamples.token_address DeployExamples.token))).1
      !! DeployExamples.token_address
    = Some DeployExamples.token.
Proof.
  split; [exact example_token_registered|].
  destruct (registry_entries_persist
              [Deploy.GetOrCreate;
               Deploy.Register "0x0000000000000000000000000000000000000001"
                               DeployExamples.token]
              _ _ _ example_token_registered) as [Hstays Hsame].
  split; [exact Hstays|]. exact (Hsame example_calls_spare_token).
Defined.

(** X17, witness: an ERC-20 deployed by file name on a chain that mines
    it at once. *)
Lemma deploy_registers_instance_witness :
  Deploy.resolve_contract DeployExamples.get_contract DeployExamples.fresh
    (Deploy.ByName "ERC20Mock.json")
  = Ok (DeployExamples.erc20, Some "ERC20Mock")
  ∧ DeployExamples.transact 0%nat DeployExamples.erc20 [] "0xdeployer"
    = (Ok 0%nat, 1%nat)
  ∧ DeployExamples.wait_for_transaction_receipt 1%nat 0%nat
    = (Ok (Deploy.mkReceipt DeployExamples.token_address), 1%nat)
  ∧ let deployed :=
      Deploy.deploy_contract nat nat DeployExamples.get_contract
        DeployExamples.transact DeployExamples.wait_for_transaction_receipt
        DeployExamples.fresh 0%nat (Deploy.ByName "ERC20Mock.json")
        "0xdeployer" [] true in
    deployed.1.1 = Ok DeployExamples.token
    ∧ deployed.2 = 1%nat
    ∧ (Deploy.get_or_create_contract_registry deployed.1.2).1
      = <[DeployExamples.token_address := DeployExamples.token]>
          (Deploy.get_or_create_contract_registry DeployExamples.fresh).1.
Proof.
  assert (Deploy.resolve_contract DeployExamples.get_contract
            DeployExamples.fresh (Deploy.ByName "ERC20Mock.json")
          = Ok (DeployExamples.erc20, Some "ERC20Mock")) as Hres
    by reflexivity.
  split; [exact Hres|]. split; [reflexivity|]. split; [reflexivity|].
  exact (deploy_registers_instance nat nat DeployExamples.get_contract
           DeployExamples.transact DeployExamples.wait_for_transaction_receipt
           DeployExamples.fresh 0%nat 1%nat 1%nat
           (Deploy.ByName "ERC20Mock.json") "0xdeployer" []
           DeployExamples.erc20 (Some "ERC20Mock") 0%nat
           (Deploy.mkReceipt DeployExamples.token_address)
           Hres eq_refl eq_refl).
Defined.

(** X19, witness: [ERC20Mock.json]. *)
Lemma deploy_by_name_strips_json_witness :
  dot_free "ERC20Mock" = true
  ∧ DeployExamples.get_contract DeployExamples.fresh ("ERC20Mock" +:+ ".json")
    = Ok DeployExamples.erc20
  ∧ Deploy.resolve_contract DeployExamples.get_contract DeployExamples.fresh
      (Deploy.ByName ("ERC20Mock" +:+ ".json"))
    = Ok (DeployExamples.erc20, Some "ERC20Mock").
Proof.
  split; [reflexivity|]. split; [reflexivity|].
  exact (deploy_by_name_strips_json DeployExamples.get_contract
           DeployExamples.fresh "ERC20Mock" DeployExamples.erc20
           eq_refl eq_refl).
Defined.
